(** * Photogrammetry Workflow add-on: a verification development

    This file embeds the operators of [photogrammetry_addon.py] and proves
    properties of them.

    Numbers.  The add-on computes on the host's floating-point vectors.  The
    embedding idealises them as real numbers ([R]): every arithmetic
    operation is exact, and a comparison against zero is an exact comparison.

    Host library.  [mathutils] (vectors, matrices, quaternions) and the
    operator calls of [bpy] belong to the host application, not to the
    add-on.  Module [mathutils] models the vector routines the add-on calls
    by what they compute; the operator calls of [bpy.ops] are kept abstract
    behind the interface [Bpy]. *)

From Stdlib Require Import Reals Lra Lia List String Bool Arith NArith.
From Stdlib Require Import DecimalString Permutation QArith.
Import ListNotations.

Open Scope R_scope.

(** ** Python results: a value or a raised exception *)

Module Py.

(** An exception is identified by the name of its class. *)
Definition exn := string.

Inductive result (A : Type) : Type :=
| Ok (a : A)
| Raise (e : exn).

Arguments Ok {A} a.
Arguments Raise {A} e.

Definition bind {A B : Type} (m : result A) (k : A -> result B) : result B :=
  match m with
  | Ok a => k a
  | Raise e => Raise e
  end.

Definition is_ok {A : Type} (m : result A) : bool :=
  match m with
  | Ok _ => true
  | Raise _ => false
  end.

End Py.

Import Py.

Notation "x <- m ;; k" := (Py.bind m (fun x => k))
  (at level 61, m at next level, right associativity).

(** The set returned by an operator's [execute] holds one status. *)
Inductive status : Type := FINISHED | CANCELLED.

(** ** The host's vector library *)

Module mathutils.

(** *** Vectors of size 3 *)

Record Vector : Type := mkVector { x : R; y : R; z : R }.

(** [Vector()] *)
Definition Vector0 : Vector := mkVector 0 0 0.

(** [a + b], also the in-place [a += b] *)
Definition Vector_add (a b : Vector) : Vector :=
  mkVector (x a + x b) (y a + y b) (z a + z b).

(** [a / s]: the host raises [ZeroDivisionError] when the scalar is zero. *)
Definition Vector_div (a : Vector) (s : R) : result Vector :=
  if Req_dec_T s 0 then Raise "ZeroDivisionError"%string
  else Ok (mkVector (x a / s) (y a / s) (z a / s)).

(** [s * a] *)
Definition Vector_mul (s : R) (a : Vector) : Vector :=
  mkVector (s * x a) (s * y a) (s * z a).

Definition dot (a b : Vector) : R := x a * x b + y a * y b + z a * z b.

Definition cross (a b : Vector) : Vector :=
  mkVector (y a * z b - z a * y b)
           (z a * x b - x a * z b)
           (x a * y b - y a * x b).

Definition length (a : Vector) : R := sqrt (dot a a).

(** The host's normalisation: the zero vector stays the zero vector. *)
Definition normalized (a : Vector) : Vector :=
  if Req_dec_T (dot a a) 0 then Vector0
  else Vector_mul (/ length a) a.

(** *** Quaternions, stored as (w, x, y, z) *)

Record Quaternion : Type := mkQuaternion { qw : R; qx : R; qy : R; qz : R }.

Definition Quaternion_identity : Quaternion := mkQuaternion 1 0 0 0.

(** [a @ b] on two quaternions: the Hamilton product. *)
Definition Quaternion_matmul (a b : Quaternion) : Quaternion :=
  mkQuaternion
    (qw a * qw b - qx a * qx b - qy a * qy b - qz a * qz b)
    (qw a * qx b + qx a * qw b + qy a * qz b - qz a * qy b)
    (qw a * qy b - qx a * qz b + qy a * qw b + qz a * qx b)
    (qw a * qz b + qx a * qy b - qy a * qx b + qz a * qw b).

Definition Quaternion_conjugated (a : Quaternion) : Quaternion :=
  mkQuaternion (qw a) (- qx a) (- qy a) (- qz a).

Definition Quaternion_dot (a b : Quaternion) : R :=
  qw a * qw b + qx a * qx b + qy a * qy b + qz a * qz b.

(** [q @ v] on a quaternion and a vector: the vector part of q v q*. *)
Definition Quaternion_rotate (q : Quaternion) (v : Vector) : Vector :=
  let p := Quaternion_matmul
             (Quaternion_matmul q (mkQuaternion 0 (x v) (y v) (z v)))
             (Quaternion_conjugated q) in
  mkVector (qx p) (qy p) (qz p).

(** The quaternion of a rotation by [angle] about a unit [axis]. *)
Definition axis_angle_normalized_to_quat (axis : Vector) (angle : R)
  : Quaternion :=
  let phi := angle / 2 in
  mkQuaternion (cos phi) (sin phi * x axis) (sin phi * y axis)
               (sin phi * z axis).

(** The same for any axis: the axis is normalised first, and a zero axis
    gives the identity. *)
Definition axis_angle_to_quat (axis : Vector) (angle : R) : Quaternion :=
  if Req_dec_T (dot axis axis) 0 then Quaternion_identity
  else axis_angle_normalized_to_quat (normalized axis) angle.

(** Index of the component of largest magnitude (ties go to the later one). *)
Definition axis_dominant (v : Vector) : nat :=
  if Rlt_dec (Rabs (y v)) (Rabs (x v)) then
    (if Rlt_dec (Rabs (z v)) (Rabs (x v)) then 0%nat else 2%nat)
  else
    (if Rlt_dec (Rabs (z v)) (Rabs (y v)) then 1%nat else 2%nat).

(** A vector orthogonal to [v]. *)
Definition ortho (v : Vector) : Vector :=
  match axis_dominant v with
  | 0%nat => mkVector (- y v - z v) (x v) (x v)
  | 1%nat => mkVector (y v) (- x v - z v) (y v)
  | _ => mkVector (z v) (z v) (- x v - y v)
  end.

(** The rotation between two unit vectors: about their cross product by
    the angle between them; when they are colinear, the identity if they
    point the same way and a half turn about an orthogonal axis if not. *)
Definition rotation_between_vecs_to_quat (v1 v2 : Vector) : Quaternion :=
  let axis := cross v1 v2 in
  if Req_dec_T (dot axis axis) 0 then
    (if Rlt_dec 0 (dot v1 v2) then Quaternion_identity
     else axis_angle_to_quat (ortho v1) PI)
  else axis_angle_normalized_to_quat (normalized axis) (acos (dot v1 v2)).

(** [a.rotation_difference(b)]: both vectors are normalised, then the
    rotation between them is taken. *)
Definition rotation_difference (a b : Vector) : Quaternion :=
  rotation_between_vecs_to_quat (normalized a) (normalized b).

(** *** Matrices *)

Record Matrix3 : Type := mkMatrix3 {
  a00 : R; a01 : R; a02 : R;
  a10 : R; a11 : R; a12 : R;
  a20 : R; a21 : R; a22 : R }.

Record Matrix : Type := mkMatrix {
  m00 : R; m01 : R; m02 : R; m03 : R;
  m10 : R; m11 : R; m12 : R; m13 : R;
  m20 : R; m21 : R; m22 : R; m23 : R;
  m30 : R; m31 : R; m32 : R; m33 : R }.

Definition det3 (a b c d e f g h i : R) : R :=
  a * (e * i - f * h) - b * (d * i - f * g) + c * (d * h - e * g).

Definition Matrix3_determinant (m : Matrix3) : R :=
  det3 (a00 m) (a01 m) (a02 m) (a10 m) (a11 m) (a12 m)
       (a20 m) (a21 m) (a22 m).

(** Determinant by expansion along the first row. *)
Definition determinant (m : Matrix) : R :=
    m00 m * det3 (m11 m) (m12 m) (m13 m) (m21 m) (m22 m) (m23 m)
                 (m31 m) (m32 m) (m33 m)
  - m01 m * det3 (m10 m) (m12 m) (m13 m) (m20 m) (m22 m) (m23 m)
                 (m30 m) (m32 m) (m33 m)
  + m02 m * det3 (m10 m) (m11 m) (m13 m) (m20 m) (m21 m) (m23 m)
                 (m30 m) (m31 m) (m33 m)
  - m03 m * det3 (m10 m) (m11 m) (m12 m) (m20 m) (m21 m) (m22 m)
                 (m30 m) (m31 m) (m32 m).

(** The classical adjoint: entry (i, j) is the cofactor of entry (j, i). *)
Definition adjoint (m : Matrix) : Matrix :=
  let c00 := det3 (m11 m) (m12 m) (m13 m) (m21 m) (m22 m) (m23 m)
                  (m31 m) (m32 m) (m33 m) in
  let c01 := - det3 (m10 m) (m12 m) (m13 m) (m20 m) (m22 m) (m23 m)
                    (m30 m) (m32 m) (m33 m) in
  let c02 := det3 (m10 m) (m11 m) (m13 m) (m20 m) (m21 m) (m23 m)
                  (m30 m) (m31 m) (m33 m) in
  let c03 := - det3 (m10 m) (m11 m) (m12 m) (m20 m) (m21 m) (m22 m)
                    (m30 m) (m31 m) (m32 m) in
  let c10 := - det3 (m01 m) (m02 m) (m03 m) (m21 m) (m22 m) (m23 m)
                    (m31 m) (m32 m) (m33 m) in
  let c11 := det3 (m00 m) (m02 m) (m03 m) (m20 m) (m22 m) (m23 m)
                  (m30 m) (m32 m) (m33 m) in
  let c12 := - det3 (m00 m) (m01 m) (m03 m) (m20 m) (m21 m) (m23 m)
                    (m30 m) (m31 m) (m33 m) in
  let c13 := det3 (m00 m) (m01 m) (m02 m) (m20 m) (m21 m) (m22 m)
                  (m30 m) (m31 m) (m32 m) in
  let c20 := det3 (m01 m) (m02 m) (m03 m) (m11 m) (m12 m) (m13 m)
                  (m31 m) (m32 m) (m33 m) in
  let c21 := - det3 (m00 m) (m02 m) (m03 m) (m10 m) (m12 m) (m13 m)
                    (m30 m) (m32 m) (m33 m) in
  let c22 := det3 (m00 m) (m01 m) (m03 m) (m10 m) (m11 m) (m13 m)
                  (m30 m) (m31 m) (m33 m) in
  let c23 := - det3 (m00 m) (m01 m) (m02 m) (m10 m) (m11 m) (m12 m)
                    (m30 m) (m31 m) (m32 m) in
  let c30 := - det3 (m01 m) (m02 m) (m03 m) (m11 m) (m12 m) (m13 m)
                    (m21 m) (m22 m) (m23 m) in
  let c31 := det3 (m00 m) (m02 m) (m03 m) (m10 m) (m12 m) (m13 m)
                  (m20 m) (m22 m) (m23 m) in
  let c32 := - det3 (m00 m) (m01 m) (m03 m) (m10 m) (m11 m) (m13 m)
                    (m20 m) (m21 m) (m23 m) in
  let c33 := det3 (m00 m) (m01 m) (m02 m) (m10 m) (m11 m) (m12 m)
                  (m20 m) (m21 m) (m22 m) in
  mkMatrix c00 c10 c20 c30
           c01 c11 c21 c31
           c02 c12 c22 c32
           c03 c13 c23 c33.

Definition Matrix_scale (s : R) (m : Matrix) : Matrix :=
  mkMatrix (s * m00 m) (s * m01 m) (s * m02 m) (s * m03 m)
           (s * m10 m) (s * m11 m) (s * m12 m) (s * m13 m)
           (s * m20 m) (s * m21 m) (s * m22 m) (s * m23 m)
           (s * m30 m) (s * m31 m) (s * m32 m) (s * m33 m).

(** [m.inverted()]: the adjoint divided by the determinant; the host raises
    [ValueError] when the determinant is zero. *)
Definition inverted (m : Matrix) : result Matrix :=
  if Req_dec_T (determinant m) 0 then Raise "ValueError"%string
  else Ok (Matrix_scale (/ determinant m) (adjoint m)).

(** [m.transposed()] *)
Definition transposed (m : Matrix) : Matrix :=
  mkMatrix (m00 m) (m10 m) (m20 m) (m30 m)
           (m01 m) (m11 m) (m21 m) (m31 m)
           (m02 m) (m12 m) (m22 m) (m32 m)
           (m03 m) (m13 m) (m23 m) (m33 m).

(** [m.to_3x3()]: the upper-left block. *)
Definition to_3x3 (m : Matrix) : Matrix3 :=
  mkMatrix3 (m00 m) (m01 m) (m02 m)
            (m10 m) (m11 m) (m12 m)
            (m20 m) (m21 m) (m22 m).

(** [m @ v] on a 3x3 matrix and a vector. *)
Definition Matrix3_matmul_vec (m : Matrix3) (v : Vector) : Vector :=
  mkVector (a00 m * x v + a01 m * y v + a02 m * z v)
           (a10 m * x v + a11 m * y v + a12 m * z v)
           (a20 m * x v + a21 m * y v + a22 m * z v).

Definition Matrix3_transposed (m : Matrix3) : Matrix3 :=
  mkMatrix3 (a00 m) (a10 m) (a20 m)
            (a01 m) (a11 m) (a21 m)
            (a02 m) (a12 m) (a22 m).

Definition Matrix3_matmul (a b : Matrix3) : Matrix3 :=
  mkMatrix3
    (a00 a * a00 b + a01 a * a10 b + a02 a * a20 b)
    (a00 a * a01 b + a01 a * a11 b + a02 a * a21 b)
    (a00 a * a02 b + a01 a * a12 b + a02 a * a22 b)
    (a10 a * a00 b + a11 a * a10 b + a12 a * a20 b)
    (a10 a * a01 b + a11 a * a11 b + a12 a * a21 b)
    (a10 a * a02 b + a11 a * a12 b + a12 a * a22 b)
    (a20 a * a00 b + a21 a * a10 b + a22 a * a20 b)
    (a20 a * a01 b + a21 a * a11 b + a22 a * a21 b)
    (a20 a * a02 b + a21 a * a12 b + a22 a * a22 b).

(** The inverse of a 3x3 matrix by cofactors (meaningful when the
    determinant is not zero). *)
Definition Matrix3_inverse (m : Matrix3) : Matrix3 :=
  let d := Matrix3_determinant m in
  mkMatrix3
    ((a11 m * a22 m - a12 m * a21 m) / d)
    ((a02 m * a21 m - a01 m * a22 m) / d)
    ((a01 m * a12 m - a02 m * a11 m) / d)
    ((a12 m * a20 m - a10 m * a22 m) / d)
    ((a00 m * a22 m - a02 m * a20 m) / d)
    ((a02 m * a10 m - a00 m * a12 m) / d)
    ((a10 m * a21 m - a11 m * a20 m) / d)
    ((a01 m * a20 m - a00 m * a21 m) / d)
    ((a00 m * a11 m - a01 m * a10 m) / d).

(** The rotation matrix of a unit quaternion. *)
Definition Quaternion_to_matrix (q : Quaternion) : Matrix3 :=
  let w := qw q in let i := qx q in let j := qy q in let k := qz q in
  mkMatrix3
    (w * w + i * i - j * j - k * k) (2 * (i * j - w * k)) (2 * (i * k + w * j))
    (2 * (i * j + w * k)) (w * w - i * i + j * j - k * k) (2 * (j * k - w * i))
    (2 * (i * k - w * j)) (2 * (j * k + w * i)) (w * w - i * i - j * j + k * k).

(** A 4x4 matrix is affine when its last row is (0, 0, 0, 1): a linear part
    and a translation, as every object transform is. *)
Definition affine (m : Matrix) : Prop :=
  m30 m = 0 /\ m31 m = 0 /\ m32 m = 0 /\ m33 m = 1.

End mathutils.

Import mathutils.

(** ** Meshes and objects, as the orientation operator sees them *)

Record MeshVertex : Type := mkMeshVertex {
  co : Vector;
  normal : Vector;
  select : bool }.

Record Mesh : Type := mkMesh { vertices : list MeshVertex }.

(** The host's rotation modes: a quaternion, an Euler triple in one of six
    axis orders, or an axis and an angle. *)
Inductive RotationMode : Type :=
| QUATERNION | XYZ | XZY | YXZ | YZX | ZXY | ZYX | AXIS_ANGLE.

Record Object : Type := mkObject {
  data : Mesh;
  matrix_world : Matrix;
  location : Vector;
  scale : Vector;
  rotation_mode : RotationMode;
  rotation_quaternion : Quaternion;
  rotation_euler : Vector;
  rotation_axis_angle : R * Vector }.

Definition unit_x : Vector := mkVector 1 0 0.
Definition unit_y : Vector := mkVector 0 1 0.
Definition unit_z : Vector := mkVector 0 0 1.

(** The quaternion of an Euler triple: the rotations about the three axes,
    applied in the order the mode names. *)
Definition euler_to_quat (mode : RotationMode) (e : Vector) : Quaternion :=
  let rx := axis_angle_normalized_to_quat unit_x (x e) in
  let ry := axis_angle_normalized_to_quat unit_y (y e) in
  let rz := axis_angle_normalized_to_quat unit_z (z e) in
  let then_ (first second : Quaternion) := Quaternion_matmul second first in
  match mode with
  | XYZ => then_ (then_ rx ry) rz
  | XZY => then_ (then_ rx rz) ry
  | YXZ => then_ (then_ ry rx) rz
  | YZX => then_ (then_ ry rz) rx
  | ZXY => then_ (then_ rz rx) ry
  | ZYX => then_ (then_ rz ry) rx
  | QUATERNION | AXIS_ANGLE => Quaternion_identity
  end.

(** [object.rotation_mode = 'QUATERNION']: the host converts the rotation
    held in the old mode into the quaternion field, then switches the mode.
    No other field is written. *)
Definition set_rotation_mode_QUATERNION (o : Object) : Object :=
  let q :=
    match rotation_mode o with
    | QUATERNION => rotation_quaternion o
    | AXIS_ANGLE =>
        axis_angle_to_quat (snd (rotation_axis_angle o))
                           (fst (rotation_axis_angle o))
    | euler => euler_to_quat euler (rotation_euler o)
    end in
  mkObject (data o) (matrix_world o) (location o) (scale o)
           QUATERNION q (rotation_euler o) (rotation_axis_angle o).

(** [object.rotation_quaternion = q] *)
Definition set_rotation_quaternion (o : Object) (q : Quaternion) : Object :=
  mkObject (data o) (matrix_world o) (location o) (scale o)
           (rotation_mode o) q (rotation_euler o) (rotation_axis_angle o).

(** ** OrientByNormalsOperator *)

Module OrientByNormalsOperator.

(** What a run leaves behind: the returned status or the exception that
    escaped, the object, and the vectors printed to the console. *)
Record outcome : Type := mkOutcome {
  returned : result status;
  object_after : Object;
  printed : list Vector }.

(** One turn of the loop over [object.data.vertices]. *)
Definition loop_body (st : Vector * list Vector) (v : MeshVertex)
  : Vector * list Vector :=
  if select v
  then (Vector_add (fst st) (normal v), snd st ++ [normal v])
  else st.

Definition loop (object : Object) : Vector * list Vector :=
  fold_left loop_body (vertices (data object)) (Vector0, []).

(** The sum of the normals of the selected vertices. *)
Definition normalAvg (object : Object) : Vector := fst (loop object).

(** [normalAvg / sqrt(x*x + y*y + z*z)] *)
Definition norm (object : Object) : result Vector :=
  let normalAvg := normalAvg object in
  Vector_div normalAvg
    (sqrt (x normalAvg * x normalAvg + y normalAvg * y normalAvg
           + z normalAvg * z normalAvg)).

(** [object.matrix_world.inverted().transposed().to_3x3() @ norm] *)
Definition world_normal (object : Object) : result Vector :=
  norm <- norm object ;;
  inv <- inverted (matrix_world object) ;;
  Ok (Matrix3_matmul_vec (to_3x3 (transposed inv)) norm).

(** [world_normal.rotation_difference(Vector([0, 0, 1]))] *)
Definition rot (object : Object) : result Quaternion :=
  world_normal <- world_normal object ;;
  Ok (rotation_difference world_normal (mkVector 0 0 1)).

Definition execute (object : Object) : outcome :=
  match rot object with
  | Raise e => mkOutcome (Raise e) object (snd (loop object))
  | Ok rot =>
      let object1 := set_rotation_mode_QUATERNION object in
      let object2 :=
        set_rotation_quaternion object1
          (Quaternion_matmul rot (rotation_quaternion object1)) in
      mkOutcome (Ok FINISHED) object2 (snd (loop object))
  end.

End OrientByNormalsOperator.

(** ** The host's scene interface

    The operators below call into the host: they read the context, set
    attributes of objects and modifiers, and run operators of [bpy.ops].
    What these calls do to the scene is the host's business, so the scene
    is an abstract state and each call a transformer of it.  A host
    operator is taken to return its status set. *)

Inductive operator : Type :=
| mesh_primitive_cube_add
| object_modifier_apply (modifier : string)
| object_select_all (action : string)
| object_delete (use_global : bool)
| object_mode_set (mode : string)
| mesh_select_all (action : string)
| uv_smart_project
| object_editmode_toggle.

Class Bpy (Scene Obj Mod : Type) : Type := {
  (** [context.active_object]: [None] or an object *)
  context_active_object : Scene -> option Obj;
  (** [context.selected_objects] *)
  context_selected_objects : Scene -> list Obj;
  (** [a == b] on two objects *)
  Obj_eqb : Obj -> Obj -> bool;
  (** [len(obj.data.vertices)]; [None] when the object has no mesh data *)
  data_vertices_len : Scene -> Obj -> option N;
  (** [obj.display_type = v] *)
  set_display_type : Obj -> string -> Scene -> Scene;
  (** [obj.modifiers.new(name, type)] *)
  modifiers_new : Obj -> string -> string -> Scene -> Mod * Scene;
  (** [mod.operation = v], [mod.solver = v], [mod.object = obj] *)
  set_operation : Mod -> string -> Scene -> Scene;
  set_solver : Mod -> string -> Scene -> Scene;
  set_object : Mod -> Obj -> Scene -> Scene;
  (** [obj.select_set(b)] *)
  select_set : Obj -> bool -> Scene -> Scene;
  (** [bpy.ops.<operator>(...)] *)
  ops : operator -> Scene -> status * Scene }.

(** What an operator did, in order: the host operators it ran, the
    attributes it wrote and the lines it printed. *)
Inductive event : Type :=
| Called (op : operator)
| Wrote (attribute : string)
| Printed (line : string).

Definition status_repr (s : status) : string :=
  match s with
  | FINISHED => "{'FINISHED'}"
  | CANCELLED => "{'CANCELLED'}"
  end.

Section Operators.

Context {Scene Obj Mod : Type} {host : Bpy Scene Obj Mod}.

(** The scene together with the events so far. *)
Definition World : Type := (Scene * list event)%type.

(** A computation: it runs in a world, and returns or raises in a world. *)
Definition M (A : Type) : Type := World -> result A * World.

Definition ret {A : Type} (a : A) : M A := fun w => (Ok a, w).

Definition raise {A : Type} (e : exn) : M A := fun w => (Raise e, w).

Definition mbind {A B : Type} (m : M A) (k : A -> M B) : M B :=
  fun w =>
    match m w with
    | (Ok a, w') => k a w'
    | (Raise e, w') => (Raise e, w')
    end.

Definition read {A : Type} (f : Scene -> A) : M A :=
  fun w => (Ok (f (fst w)), w).

Definition write (attribute : string) (f : Scene -> Scene) : M unit :=
  fun w => (Ok tt, (f (fst w), snd w ++ [Wrote attribute])).

Definition print (line : string) : M unit :=
  fun w => (Ok tt, (fst w, snd w ++ [Printed line])).

Definition call (op : operator) : M status :=
  fun w =>
    let (s, scene') := ops op (fst w) in
    (Ok s, (scene', snd w ++ [Called op])).

(** Reading an attribute of [None] raises [AttributeError]. *)
Definition not_None {A : Type} (o : option A) : M A :=
  match o with
  | Some a => ret a
  | None => raise "AttributeError"%string
  end.

(** [l[i]]: an index out of range raises [IndexError]. *)
Definition getitem {A : Type} (l : list A) (i : nat) : M A :=
  match nth_error l i with
  | Some a => ret a
  | None => raise "IndexError"%string
  end.

End Operators.

Notation "x <~ m ;; k" := (mbind m (fun x => k))
  (at level 61, m at next level, right associativity).
Notation "m >> k" := (mbind m (fun _ => k))
  (at level 61, right associativity).

(** ** CubeCutOperator *)

Module CubeCutOperator.
Section WithHost.

Context {Scene Obj Mod : Type} {host : Bpy Scene Obj Mod}.

Definition poll (context : Scene) : bool :=
  match context_active_object context with
  | Some _ => true
  | None => false
  end.

(** The cutting phase, once two objects are known to be selected. *)
Definition cut : M (Scene := Scene) status :=
  selected <~ read context_selected_objects ;;
  cube0 <~ getitem selected 0 ;;
  highPoly <~ read context_active_object ;;
  cube <~ (match highPoly with
           | Some h =>
               if Obj_eqb cube0 h then getitem selected 1 else ret cube0
           | None => ret cube0
           end) ;;
  highPoly <~ not_None highPoly ;;
  boolMod <~ (fun w =>
                let (m, scene') := modifiers_new highPoly "BoolCut" "BOOLEAN"
                                     (fst w) in
                (Ok m, (scene', snd w ++ [Wrote "modifiers.new"%string]))) ;;
  write "operation" (set_operation boolMod "INTERSECT") >>
  write "solver" (set_solver boolMod "FAST") >>
  write "object" (set_object boolMod cube) >>
  call (object_modifier_apply "BoolCut") >>
  call (object_select_all "DESELECT") >>
  write "select_set" (select_set cube true) >>
  call (object_delete false) >>
  ret FINISHED.

Definition execute (first_call : bool) : M (Scene := Scene) status :=
  if first_call then
    call mesh_primitive_cube_add >>
    cube <~ read context_active_object ;;
    cube <~ not_None cube ;;
    write "display_type" (set_display_type cube "BOUNDS") >>
    ret FINISHED
  else
    selected <~ read context_selected_objects ;;
    if negb (Nat.eqb (List.length selected) 2) then ret CANCELLED
    else cut.

End WithHost.
End CubeCutOperator.

(** ** CustomUVOperator *)

Module CustomUVOperator.
Section WithHost.

Context {Scene Obj Mod : Type} {host : Bpy Scene Obj Mod}.

Definition poll (context : Scene) : bool :=
  match context_active_object context with
  | Some _ => true
  | None => false
  end.

(** [str(n)] for a vertex count *)
Definition str (n : N) : string := NilEmpty.string_of_uint (N.to_uint n).

(** [len(lowPoly.data.vertices)] *)
Definition len_vertices (lowPoly : Obj) : M (Scene := Scene) N :=
  n <~ read (fun scene => data_vertices_len scene lowPoly) ;;
  not_None n.

Definition execute : M (Scene := Scene) status :=
  lowPoly <~ read context_active_object ;;
  lowPoly <~ not_None lowPoly ;;
  n <~ len_vertices lowPoly ;;
  (if (n <? 40000)%N then
     print "Vertex count < 40000" >>
     call (object_mode_set "EDIT") >>
     s <~ call (mesh_select_all "SELECT") ;;
     print (status_repr s) >>
     print "Starting uv unwrap" >>
     call uv_smart_project >>
     call object_editmode_toggle >>
     print "Finished uv unwrap"
   else
     n' <~ len_vertices lowPoly ;;
     print ("UV unwrap cancelled because of high polygon count: "
            ++ str n' ++ " > 40000.")) >>
  ret FINISHED.

End WithHost.
End CustomUVOperator.

(** ** A small host, to run the operators on

    The scene lists its objects by number with their vertex counts, the
    selection and the active object; the host operators leave it as it is
    and report [FINISHED]. *)

Module ToyHost.

Record Scene : Type := mkScene {
  counts : list (nat * N);
  selected : list nat;
  active : option nat }.

Definition count_of (s : Scene) (o : nat) : option N :=
  match find (fun p => Nat.eqb (fst p) o) (counts s) with
  | Some p => Some (snd p)
  | None => None
  end.

#[global] Instance toy : Bpy Scene nat unit := {
  context_active_object := active;
  context_selected_objects := selected;
  Obj_eqb := Nat.eqb;
  data_vertices_len := count_of;
  set_display_type := fun _ _ s => s;
  modifiers_new := fun _ _ _ s => (tt, s);
  set_operation := fun _ _ s => s;
  set_solver := fun _ _ s => s;
  set_object := fun _ _ s => s;
  select_set := fun _ _ s => s;
  ops := fun _ s => (FINISHED, s) }.

(** Two objects, one of 8 vertices and one of 50000, the second active. *)
Definition scene1 : Scene :=
  mkScene [(1%nat, 8%N); (2%nat, 50000%N)] [2%nat] (Some 2%nat).


(** Both objects selected. *)
Definition scene3 : Scene :=
  mkScene [(1%nat, 8%N); (2%nat, 50000%N)] [1%nat; 2%nat] (Some 2%nat).

End ToyHost.

(** The events of a run that starts with none. *)
Definition events_of {Scene A : Type} (out : result A * (Scene * list event))
  : list event := snd (snd out).

Definition scene_of {Scene A : Type} (out : result A * (Scene * list event))
  : Scene := fst (snd out).

(** ** Objects to run the orientation operator on *)


Definition Matrix_identity : Matrix :=
  mkMatrix 1 0 0 0
           0 1 0 0
           0 0 1 0
           0 0 0 1.

(** The world matrix of an object scaled by (sx, sy, sz), neither turned
    nor moved. *)
Definition Matrix_diagonal (sx sy sz : R) : Matrix :=
  mkMatrix sx 0 0 0
           0 sy 0 0
           0 0 sz 0
           0 0 0 1.

(** The half turn the host picks for a vector that points straight down. *)
Definition half_turn_down : Quaternion :=
  mkQuaternion 0 (- / sqrt 2) (- / sqrt 2) 0.

(** The world matrix of an object turned by [q] where it stands: the
    linear part is turned, the translation stays. *)
Definition Matrix_rotated (q : Quaternion) (m : Matrix) : Matrix :=
  let r := Matrix3_matmul (Quaternion_to_matrix q) (to_3x3 m) in
  mkMatrix (a00 r) (a01 r) (a02 r) (m03 m)
           (a10 r) (a11 r) (a12 r) (m13 m)
           (a20 r) (a21 r) (a22 r) (m23 m)
           (m30 m) (m31 m) (m32 m) (m33 m).


(** The orientation an object has, as a quaternion: the quaternion field in
    quaternion mode, and what the host converts the rotation to in the
    other modes. *)
Definition prior_orientation (o : Object) : Quaternion :=
  rotation_quaternion (set_rotation_mode_QUATERNION o).

Module Samples.

(** An object as the host creates it: Euler mode, no rotation. *)
Definition object_of (vs : list MeshVertex) (m : Matrix) : Object :=
  mkObject (mkMesh vs) m Vector0 (mkVector 1 1 1)
           XYZ Quaternion_identity Vector0 (0, unit_y).

Definition vertex (n : Vector) (selected : bool) : MeshVertex :=
  mkMeshVertex Vector0 n selected.


(** One vertex, not selected. *)
Definition unselected : Object :=
  object_of [vertex unit_z false] Matrix_identity.



(** One selected vertex facing along x, the object stretched along x. *)
Definition stretched : Object :=
  object_of [vertex unit_x true] (Matrix_diagonal 2 1 1).

(** One selected vertex facing straight down. *)
Definition down : Object :=
  object_of [vertex (mkVector 0 0 (-1)) true] Matrix_identity.

(** The same in quaternion mode, already turned a quarter turn about z. *)
Definition down_turned : Object :=
  mkObject (mkMesh [vertex (mkVector 0 0 (-1)) true])
           (mkMatrix 0 (-1) 0 0
                     1 0 0 0
                     0 0 1 0
                     0 0 0 1)
           Vector0 (mkVector 1 1 1)
           QUATERNION (mkQuaternion (/ sqrt 2) 0 0 (/ sqrt 2)) Vector0
           (0, unit_y).

End Samples.

(** ** Further definitions for the properties below *)


(** The host operators among the events of a run, in order. *)
Fixpoint called_ops (events : list event) : list operator :=
  match events with
  | [] => []
  | Called op :: rest => op :: called_ops rest
  | _ :: rest => called_ops rest
  end.

Module MoreSamples.

(** One selected vertex facing up, two that are not selected. *)
Definition facing_up : Object :=
  Samples.object_of
    [Samples.vertex unit_x false; Samples.vertex unit_z true;
     Samples.vertex unit_y false]
    Matrix_identity.

(** The stretched object of [Samples], moved to (3, 4, 5) and with its
    vertex away from the origin. *)
Definition stretched_moved : Object :=
  Samples.object_of [mkMeshVertex (mkVector 1 2 3) unit_x true]
    (mkMatrix 2 0 0 3
              0 1 0 4
              0 0 1 5
              0 0 0 1).




(** Toy scenes: two objects selected and none active; and an active object
    (number 3) that has no mesh data. *)
Definition scene_no_active : ToyHost.Scene :=
  ToyHost.mkScene [(1%nat, 8%N); (2%nat, 50000%N)] [1%nat; 2%nat] None.

Definition scene_no_mesh : ToyHost.Scene :=
  ToyHost.mkScene [(1%nat, 8%N)] [3%nat] (Some 3%nat).

End MoreSamples.

(** ** register and unregister

    The host keeps the classes that are registered and the properties that
    were added to [bpy.types.Object].  Registering a class that is
    registered raises [ValueError]; unregistering one that is not raises
    [RuntimeError]; assigning a property replaces one of the same name. *)

Module Registration.

(** [bpy.props.FloatProperty(...)]: an argument that is not given is
    [None]. *)
Record FloatProperty : Type := mkFloatProperty {
  name : string;
  min : option Q;
  max : option Q;
  step : option Z;
  precision : option Z;
  default : Q }.

Record Host : Type := mkHost {
  classes : list string;
  Object_properties : list (string * FloatProperty) }.

Definition registered (cls : string) (h : Host) : bool :=
  existsb (String.eqb cls) (classes h).

(** [bpy.utils.register_class(cls)] *)
Definition register_class (cls : string) (h : Host) : result Host :=
  if registered cls h then Raise "ValueError"%string
  else Ok (mkHost (classes h ++ [cls]) (Object_properties h)).

(** [bpy.utils.unregister_class(cls)] *)
Definition unregister_class (cls : string) (h : Host) : result Host :=
  if registered cls h
  then Ok (mkHost (filter (fun c => negb (String.eqb cls c)) (classes h))
                  (Object_properties h))
  else Raise "RuntimeError"%string.

(** [bpy.types.Object.<attribute> = property] *)
Definition set_Object_property (attribute : string) (p : FloatProperty)
  (h : Host) : Host :=
  mkHost (classes h)
         ((attribute, p)
          :: filter (fun kv => negb (String.eqb attribute (fst kv)))
               (Object_properties h)).

Definition get_Object_property (attribute : string) (h : Host)
  : option FloatProperty :=
  match find (fun kv => String.eqb attribute (fst kv))
             (Object_properties h) with
  | Some kv => Some (snd kv)
  | None => None
  end.

(** The classes of the add-on, in the order both functions name them. *)
Definition addon_classes : list string :=
  ["CubeCutOperator"; "CustomBakeOperator"; "CustomUVOperator";
   "OrientByNormalsOperator"; "LowPolyOperator";
   "PhotogrammetryPanel"]%string.

(** The calls on the classes, one after the other; the first that raises
    ends the run, and what the earlier ones did stays done. *)
Fixpoint each_class (f : string -> Host -> result Host)
  (cs : list string) (h : Host) : result unit * Host :=
  match cs with
  | [] => (Ok tt, h)
  | c :: cs' =>
      match f c h with
      | Ok h' => each_class f cs' h'
      | Raise e => (Raise e, h)
      end
  end.

Definition decimateCollaps : FloatProperty :=
  mkFloatProperty "Decimate Anteil" (Some 0%Q) (Some 1%Q) (Some 4%Z)
                  (Some 4%Z) (1 # 100)%Q.

Definition decimatePlanar : FloatProperty :=
  mkFloatProperty "Planar Angle" (Some 0%Q) None None None 5%Q.

Definition register (h : Host) : result unit * Host :=
  match each_class register_class addon_classes h with
  | (Ok _, h') =>
      (Ok tt,
       set_Object_property "decimatePlanar" decimatePlanar
         (set_Object_property "decimateCollaps" decimateCollaps h'))
  | (Raise e, h') => (Raise e, h')
  end.

Definition unregister (h : Host) : result unit * Host :=
  each_class unregister_class addon_classes h.

(** A host with one foreign class and no property, and the same with the
    panel of the add-on registered too. *)
Definition fresh_host : Host := mkHost ["OtherOperator"%string] [].

Definition panel_host : Host :=
  mkHost ["OtherOperator"; "PhotogrammetryPanel"]%string [].

End Registration.

(** ** CustomBakeOperator

    The bake operator also reaches into [bpy.data], materials, images and
    shader nodes.  These calls form a second interface; as before the scene
    is abstract and a host operator is taken to return its status set. *)

Inductive data_operator : Type :=
| object_material_slot_remove
| object_bake (type : string) (pass_filter : list string)
    (use_selected_to_active : bool) (cage_extrusion : Q).

Class BpyData (Scene Obj Mat Img Node : Type) : Type := {
  (** [obj.name] *)
  Obj_name : Scene -> Obj -> string;
  (** [len(obj.material_slots)] *)
  material_slots_len : Scene -> Obj -> nat;
  (** [bpy.data.materials.new(name)] *)
  data_materials_new : string -> Scene -> Mat * Scene;
  (** [mat.use_nodes = b] *)
  set_use_nodes : Mat -> bool -> Scene -> Scene;
  (** [obj.data.materials.append(mat)]; [None] when the object has no data
      that holds materials *)
  data_materials_append : Obj -> Mat -> Scene -> option Scene;
  (** [bpy.data.images.new(name, width, height, alpha, float_buffer,
      stereo3d, is_data, tiled)] *)
  data_images_new :
    string -> N -> N -> bool -> bool -> bool -> bool -> bool ->
    Scene -> Img * Scene;
  (** [mat.node_tree.nodes.new(type)] *)
  nodes_new : Mat -> string -> Scene -> Node * Scene;
  (** [node.image = img] *)
  set_image : Node -> Img -> Scene -> Scene;
  (** [mat.node_tree.nodes], as a loop goes through it *)
  node_tree_nodes : Scene -> Mat -> list Node;
  (** [node.select] and [node.select = b] *)
  node_select : Scene -> Node -> bool;
  set_node_select : Node -> bool -> Scene -> Scene;
  (** [mat.node_tree.nodes.active] and [mat.node_tree.nodes.active = node] *)
  nodes_active : Scene -> Mat -> option Node;
  set_nodes_active : Mat -> Node -> Scene -> Scene;
  (** [bpy.context.view_layer.objects.active = obj] *)
  set_view_layer_active : Obj -> Scene -> Scene;
  (** [mat.node_tree.nodes[name]]; [None] when there is no such node *)
  nodes_getitem : Scene -> Mat -> string -> option Node;
  (** [mat.node_tree.links.new(a.outputs[o], b.inputs[i])] *)
  links_new : Mat -> Node -> string -> Node -> string -> Scene -> Scene;
  (** [bpy.ops.object.material_slot_remove()] and [bpy.ops.object.bake(...)] *)
  ops_data : data_operator -> Scene -> status * Scene }.

(** What the bake operator did, in order: events as before, and the calls
    of the two operators above. *)
Inductive bake_event : Type :=
| Did (e : event)
| CalledData (op : data_operator).



Module CustomBakeOperator.
Section WithHost.

Context {Scene Obj Mod Mat Img Node : Type}
        {host : Bpy Scene Obj Mod}
        {data_host : BpyData Scene Obj Mat Img Node}.

Definition poll (context : Scene) : bool :=
  match context_active_object context with
  | None => false
  | Some _ =>
      if negb (Nat.eqb (List.length (context_selected_objects context)) 2)
      then false
      else true
  end.

(** The scene with the events so far, and computations in it. *)
Definition World : Type := (Scene * list bake_event)%type.

Definition B (A : Type) : Type := World -> result A * World.

Definition ret {A : Type} (a : A) : B A := fun w => (Ok a, w).

Definition raise {A : Type} (e : exn) : B A := fun w => (Raise e, w).

Definition bind {A C : Type} (m : B A) (k : A -> B C) : B C :=
  fun w =>
    match m w with
    | (Ok a, w') => k a w'
    | (Raise e, w') => (Raise e, w')
    end.

Definition read {A : Type} (f : Scene -> A) : B A :=
  fun w => (Ok (f (fst w)), w).

Definition write (attribute : string) (f : Scene -> Scene) : B unit :=
  fun w => (Ok tt, (f (fst w), snd w ++ [Did (Wrote attribute)])).

(** A call that creates something and returns it. *)
Definition create {A : Type} (what : string) (f : Scene -> A * Scene)
  : B A :=
  fun w =>
    let (a, scene') := f (fst w) in
    (Ok a, (scene', snd w ++ [Did (Wrote what)])).

Definition print (line : string) : B unit :=
  fun w => (Ok tt, (fst w, snd w ++ [Did (Printed line)])).

Definition call (op : operator) : B status :=
  fun w =>
    let (s, scene') := ops op (fst w) in
    (Ok s, (scene', snd w ++ [Did (Called op)])).

Definition call_data (op : data_operator) : B status :=
  fun w =>
    let (s, scene') := ops_data op (fst w) in
    (Ok s, (scene', snd w ++ [CalledData op])).

Definition getitem {A : Type} (l : list A) (i : nat) : B A :=
  match nth_error l i with
  | Some a => ret a
  | None => raise "IndexError"%string
  end.

(** [for i in range(n): body] *)
Fixpoint for_range (n : nat) (body : B unit) : B unit :=
  match n with
  | O => ret tt
  | S n' => bind body (fun _ => for_range n' body)
  end.

(** [for a in l: body(a)] *)
Fixpoint for_each {A : Type} (l : list A) (body : A -> B unit) : B unit :=
  match l with
  | [] => ret tt
  | a :: l' => bind (body a) (fun _ => for_each l' body)
  end.

(** The local function [selectNode(mat, node)]. *)
Definition selectNode (mat : Mat) (node : Node) : B unit :=
  bind (read (fun scene => node_tree_nodes scene mat)) (fun nodes =>
  bind (for_each nodes
          (fun n => write "select" (set_node_select n false))) (fun _ =>
  bind (write "select" (set_node_select node true)) (fun _ =>
  write "nodes.active" (set_nodes_active mat node)))).

(** Lines 81-84: the loop over the material slots of the low-poly. *)
Definition remove_old_materials (lowPoly : Obj) : B unit :=
  bind (read (fun scene => material_slots_len scene lowPoly)) (fun n =>
  bind (for_range n
          (bind (call_data object_material_slot_remove)
                (fun _ => ret tt))) (fun _ =>
  print "Removed old materials on LowPoly.")).

(** Lines 86-143, from the new material to the link. *)
Definition bake_to_new_material (highPoly lowPoly : Obj) (name : string)
  : B status :=
  bind (create "materials.new"
          (data_materials_new (name ++ "_LowPoly_Material"))) (fun mat =>
  bind (write "use_nodes" (set_use_nodes mat true)) (fun _ =>
  bind (fun w =>
          match data_materials_append lowPoly mat (fst w) with
          | Some scene' =>
              (Ok tt, (scene', snd w ++ [Did (Wrote "materials.append")]))
          | None => (Raise "AttributeError"%string, w)
          end) (fun _ =>
  bind (print "Added new material.") (fun _ =>
  bind (create "images.new"
          (data_images_new (name ++ "_LowPoly") 2048 2048
             false false false false false)) (fun img =>
  bind (print "Created new image node.") (fun _ =>
  bind (create "nodes.new" (nodes_new mat "ShaderNodeTexImage"))
    (fun imgTex =>
  bind (write "image" (set_image imgTex img)) (fun _ =>
  bind (selectNode mat imgTex) (fun _ =>
  bind (print "Node selected.") (fun _ =>
  bind (call (object_select_all "DESELECT")) (fun _ =>
  bind (write "select_set" (select_set lowPoly true)) (fun _ =>
  bind (write "select_set" (select_set highPoly true)) (fun _ =>
  bind (write "objects.active" (set_view_layer_active lowPoly)) (fun _ =>
  bind (print "Begin baking") (fun _ =>
  bind (call_data (object_bake "DIFFUSE" ["COLOR"%string] true (1 # 10)))
    (fun _ =>
  bind (print "Bake finished") (fun _ =>
  bind (read (fun scene => nodes_getitem scene mat "Principled BSDF"))
    (fun bsdf =>
  match bsdf with
  | None => raise "KeyError"%string
  | Some bsdf =>
      bind (write "links.new"
              (links_new mat imgTex "Color" bsdf "Base Color")) (fun _ =>
      ret FINISHED)
  end)))))))))))))))))).

Definition execute : B status :=
  bind (read context_selected_objects) (fun selected =>
  bind (getitem selected 0) (fun highPoly =>
  bind (read context_selected_objects) (fun selected =>
  bind (getitem selected 1) (fun lowPoly =>
  bind (read (fun scene => Obj_name scene highPoly)) (fun name =>
  bind (remove_old_materials lowPoly) (fun _ =>
  bake_to_new_material highPoly lowPoly name)))))).

End WithHost.
End CustomBakeOperator.

(** ** A small host for the bake operator

    On top of a toy scene: every object has the same number of material
    slots, shader nodes are numbers, the node tree of the one material is a
    list of them with their selection flags and the active node, and node 0
    is the Principled BSDF when the tree has one. *)

Module ToyData.

Record Scene : Type := mkScene {
  base : ToyHost.Scene;
  slots : nat;
  tree : list nat;
  flags : nat -> bool;
  active_node : option nat;
  has_bsdf : bool }.

Definition with_flags (s : Scene) (f : nat -> bool) : Scene :=
  mkScene (base s) (slots s) (tree s) f (active_node s) (has_bsdf s).

Definition with_active_node (s : Scene) (n : nat) : Scene :=
  mkScene (base s) (slots s) (tree s) (flags s) (Some n) (has_bsdf s).

Definition with_new_node (s : Scene) : nat * Scene :=
  let n := S (list_max (tree s)) in
  (n, mkScene (base s) (slots s) (tree s ++ [n]) (flags s) (active_node s)
              (has_bsdf s)).

#[global] Instance toy_bpy : Bpy Scene nat unit := {
  context_active_object := fun s => ToyHost.active (base s);
  context_selected_objects := fun s => ToyHost.selected (base s);
  Obj_eqb := Nat.eqb;
  data_vertices_len := fun s => ToyHost.count_of (base s);
  set_display_type := fun _ _ s => s;
  modifiers_new := fun _ _ _ s => (tt, s);
  set_operation := fun _ _ s => s;
  set_solver := fun _ _ s => s;
  set_object := fun _ _ s => s;
  select_set := fun _ _ s => s;
  ops := fun _ s => (FINISHED, s) }.

#[global] Instance toy_data : BpyData Scene nat unit unit nat := {
  Obj_name := fun _ _ => "Statue"%string;
  material_slots_len := fun s _ => slots s;
  data_materials_new := fun _ s => (tt, s);
  set_use_nodes := fun _ _ s => s;
  data_materials_append := fun _ _ s => Some s;
  data_images_new := fun _ _ _ _ _ _ _ _ s => (tt, s);
  nodes_new := fun _ _ s => with_new_node s;
  set_image := fun _ _ s => s;
  node_tree_nodes := fun s _ => tree s;
  node_select := fun s n => flags s n;
  set_node_select := fun n b s =>
    with_flags s (fun n' => if Nat.eqb n n' then b else flags s n');
  nodes_active := fun s _ => active_node s;
  set_nodes_active := fun _ n s => with_active_node s n;
  set_view_layer_active := fun _ s => s;
  nodes_getitem := fun s _ _ => if has_bsdf s then Some 0%nat else None;
  links_new := fun _ _ _ _ _ s => s;
  ops_data := fun _ s => (FINISHED, s) }.

(** Two objects selected, three material slots, a tree with the BSDF
    (node 0, selected and active) and one more node. *)
Definition studio : Scene :=
  mkScene ToyHost.scene3 3 [0%nat; 1%nat]
          (fun n => Nat.eqb n 0) (Some 0%nat) true.

(** One object selected. *)
Definition lonely : Scene :=
  mkScene ToyHost.scene1 3 [0%nat; 1%nat]
          (fun n => Nat.eqb n 0) (Some 0%nat) true.

End ToyData.

(** Proof steps for the sample objects: a sum of normals that is visibly
    not zero, and the determinant of a matrix of constants. *)
Ltac sum_nonzero :=
  let H := fresh "H" in
  intro H; apply (f_equal (fun v => (x v, y v, z v))) in H;
  unfold OrientByNormalsOperator.normalAvg, OrientByNormalsOperator.loop in H;
  simpl in H; injection H; intros; lra.

Ltac closed_determinant :=
  unfold determinant, det3; simpl; lra.

(** * Properties *)

(** ** CubeCutOperator *)

Section CubeCutProperties.

Context {Scene Obj Mod : Type} {host : Bpy Scene Obj Mod}.

(** C10. In the cutting phase ([first_call = False]), when the number of
    selected objects is not two, [execute] returns CANCELLED at once: the
    scene is the one it started from and no event is added, so no modifier
    is created or applied and no object is deleted. *)
Theorem cube_cut_cancelled_unchanged (scene : Scene) (log : list event) :
  List.length (context_selected_objects scene) <> 2%nat ->
  CubeCutOperator.execute false (scene, log) = (Ok CANCELLED, (scene, log)).
Proof.
  intros Hlen.
  unfold CubeCutOperator.execute, mbind, read, ret. simpl.
  destruct (Nat.eqb (List.length (context_selected_objects scene)) 2) eqn:E.
  - apply Nat.eqb_eq in E. contradiction.
  - reflexivity.
Qed.

End CubeCutProperties.

Lemma cube_cut_cancelled_unchanged_witness :
  List.length (context_selected_objects ToyHost.scene1) <> 2%nat /\
  CubeCutOperator.execute false (ToyHost.scene1, [])
  = (Ok CANCELLED, (ToyHost.scene1, [])).
Proof.
  split.
  - simpl. lia.
  - apply (cube_cut_cancelled_unchanged ToyHost.scene1 []). simpl. lia.
Defined.

(** With exactly two objects selected the cutting phase does run: the
    modifier is created, set up and applied and the bounds are deleted. *)
Example cube_cut_two_selected :
  CubeCutOperator.execute false (ToyHost.scene3, [])
  = (Ok FINISHED,
     (ToyHost.scene3,
      [Wrote "modifiers.new"; Wrote "operation"; Wrote "solver";
       Wrote "object"; Called (object_modifier_apply "BoolCut");
       Called (object_select_all "DESELECT"); Wrote "select_set";
       Called (object_delete false)])).
Proof. reflexivity. Qed.

(** ** CustomUVOperator *)

Section CustomUVProperties.

Context {Scene Obj Mod : Type} {host : Bpy Scene Obj Mod}.


End CustomUVProperties.


(** A mesh of 50000 vertices: nothing but the message. *)
Example uv_unwrap_skipped :
  CustomUVOperator.execute (ToyHost.scene1, [])
  = (Ok FINISHED,
     (ToyHost.scene1,
      [Printed
         "UV unwrap cancelled because of high polygon count: 50000 > 40000."])).
Proof. reflexivity. Qed.

(** ** Vectors, quaternions and matrices *)

Section VectorFacts.

Lemma Vector_eq (a b : Vector) :
  x a = x b -> y a = y b -> z a = z b -> a = b.
Proof. destruct a, b; simpl; intros; subst; reflexivity. Qed.

Lemma dot_self_nonneg (a : Vector) : 0 <= dot a a.
Proof. unfold dot. nra. Qed.

Lemma dot_self_zero (a : Vector) : dot a a = 0 -> a = Vector0.
Proof.
  unfold dot. intros H. apply Vector_eq; simpl; nra.
Qed.

Lemma dot_self_pos (a : Vector) : a <> Vector0 -> 0 < dot a a.
Proof.
  intros Hne. destruct (Rle_lt_or_eq_dec _ _ (dot_self_nonneg a)) as [H|H].
  - exact H.
  - exfalso. apply Hne, dot_self_zero. symmetry. exact H.
Qed.

Lemma length_pos (a : Vector) : a <> Vector0 -> 0 < length a.
Proof. intros H. apply sqrt_lt_R0, dot_self_pos, H. Qed.

Lemma length_sqr (a : Vector) : length a * length a = dot a a.
Proof. apply sqrt_sqrt, dot_self_nonneg. Qed.

Lemma dot_scale (s : R) (a : Vector) :
  dot (Vector_mul s a) (Vector_mul s a) = s * s * dot a a.
Proof. unfold dot, Vector_mul. simpl. ring. Qed.

Lemma normalized_nonzero (a : Vector) :
  a <> Vector0 -> normalized a = Vector_mul (/ length a) a.
Proof.
  intros Hne. unfold normalized.
  destruct (Req_dec_T (dot a a) 0) as [E|E].
  - exfalso. apply Hne, dot_self_zero, E.
  - reflexivity.
Qed.

Lemma normalized_unit (a : Vector) :
  a <> Vector0 -> dot (normalized a) (normalized a) = 1.
Proof.
  intros Hne. rewrite (normalized_nonzero a Hne), dot_scale.
  rewrite <- length_sqr. pose proof (length_pos a Hne). field. lra.
Qed.

Lemma normalized_of_unit (a : Vector) : dot a a = 1 -> normalized a = a.
Proof.
  intros H. unfold normalized.
  destruct (Req_dec_T (dot a a) 0) as [E|E]; [lra|].
  unfold length. rewrite H, sqrt_1. destruct a. unfold Vector_mul. simpl.
  f_equal; field.
Qed.


End VectorFacts.

(** ** OrientByNormalsOperator: the loop and the normalisation *)

Section OrientLoop.

Import OrientByNormalsOperator.

Lemma loop_body_unselected (vs : list MeshVertex) (st : Vector * list Vector) :
  Forall (fun v => select v = false) vs ->
  fold_left loop_body vs st = st.
Proof.
  intros H. revert st. induction H as [|v vs Hv _ IH]; intros st.
  - reflexivity.
  - simpl. unfold loop_body at 2. rewrite Hv. apply IH.
Qed.

Lemma normalAvg_unselected (o : Object) :
  Forall (fun v => select v = false) (vertices (data o)) ->
  normalAvg o = Vector0.
Proof.
  intros H. unfold normalAvg, loop.
  rewrite (loop_body_unselected _ _ H). reflexivity.
Qed.

(** The divisor of line 200 is the length of the sum. *)
Lemma norm_eq (o : Object) :
  norm o = Vector_div (normalAvg o) (length (normalAvg o)).
Proof. reflexivity. Qed.

Lemma norm_of_zero_sum (o : Object) :
  normalAvg o = Vector0 -> norm o = Raise "ZeroDivisionError"%string.
Proof.
  intros H. rewrite norm_eq, H. unfold Vector_div, length, dot. simpl.
  replace (0 * 0 + 0 * 0 + 0 * 0) with 0 by ring. rewrite sqrt_0.
  destruct (Req_dec_T 0 0) as [_|E]; [reflexivity|contradiction].
Qed.

Lemma norm_of_nonzero_sum (o : Object) :
  normalAvg o <> Vector0 ->
  norm o = Ok (normalized (normalAvg o)).
Proof.
  intros Hne. rewrite norm_eq. unfold Vector_div.
  pose proof (length_pos _ Hne) as Hpos.
  destruct (Req_dec_T (length (normalAvg o)) 0) as [E|E]; [lra|].
  rewrite (normalized_nonzero _ Hne). unfold Vector_mul. f_equal.
  f_equal; unfold Rdiv; ring.
Qed.


End OrientLoop.

(** ** Matrices: the inverse of an affine matrix *)

Section MatrixFacts.

Lemma Matrix3_eq (a b : Matrix3) :
  a00 a = a00 b -> a01 a = a01 b -> a02 a = a02 b ->
  a10 a = a10 b -> a11 a = a11 b -> a12 a = a12 b ->
  a20 a = a20 b -> a21 a = a21 b -> a22 a = a22 b -> a = b.
Proof. destruct a, b; simpl; intros; subst; reflexivity. Qed.

Lemma determinant_affine (m : Matrix) :
  affine m -> determinant m = Matrix3_determinant (to_3x3 m).
Proof.
  intros (H0 & H1 & H2 & H3). destruct m; simpl in *; subst.
  unfold determinant, Matrix3_determinant, det3. simpl. ring.
Qed.

Lemma inverted_affine (m : Matrix) :
  affine m -> determinant m <> 0 ->
  exists inv,
    inverted m = Ok inv /\
    to_3x3 (transposed inv)
    = Matrix3_transposed (Matrix3_inverse (to_3x3 m)).
Proof.
  intros Ha Hd. unfold inverted.
  destruct (Req_dec_T (determinant m) 0) as [E|_]; [contradiction|].
  eexists. split; [reflexivity|].
  pose proof (determinant_affine m Ha) as Hdet.
  destruct Ha as (H0 & H1 & H2 & H3). destruct m; simpl in *; subst.
  unfold Matrix3_inverse. rewrite <- Hdet.
  unfold determinant, Matrix3_determinant, det3 in *. simpl in *.
  apply Matrix3_eq; simpl; unfold det3; field;
    first [exact Hd | intro E; apply Hd; lra].
Qed.



Lemma Matrix3_matmul_assoc (a b c : Matrix3) :
  Matrix3_matmul (Matrix3_matmul a b) c
  = Matrix3_matmul a (Matrix3_matmul b c).
Proof. destruct a, b, c. apply Matrix3_eq; simpl; ring. Qed.











End MatrixFacts.

(** ** The rotation between a vector and the up axis *)

Section RotationFacts.




Lemma ortho_down : ortho (mkVector 0 0 (-1)) = mkVector (-1) (-1) (- 0 - 0).
Proof.
  unfold ortho, axis_dominant. simpl.
  assert (H1 : Rabs (-1) = 1) by (unfold Rabs; destruct Rcase_abs; lra).
  rewrite Rabs_R0, H1.
  destruct (Rlt_dec 0 0) as [H|_]; [lra|].
  destruct (Rlt_dec 1 0) as [H|_]; [lra|]. reflexivity.
Qed.

Lemma sqrt2_facts : 0 < sqrt 2 /\ sqrt 2 * sqrt 2 = 2.
Proof.
  split; [apply sqrt_lt_R0; lra | apply sqrt_sqrt; lra].
Qed.

Lemma rotation_between_down :
  rotation_between_vecs_to_quat (mkVector 0 0 (-1)) unit_z = half_turn_down.
Proof.
  unfold rotation_between_vecs_to_quat, cross, dot, unit_z. simpl.
  destruct (Req_dec_T _ 0) as [_|E]; [|exfalso; apply E; ring].
  destruct (Rlt_dec 0 _) as [H|_]; [lra|].
  rewrite ortho_down. unfold axis_angle_to_quat, dot. simpl.
  destruct (Req_dec_T _ 0) as [E|_]; [lra|].
  unfold axis_angle_normalized_to_quat, normalized, dot. simpl.
  destruct (Req_dec_T _ 0) as [E|_]; [lra|].
  unfold length, dot, Vector_mul, half_turn_down. simpl.
  replace (-1 * -1 + -1 * -1 + (- 0 - 0) * (- 0 - 0)) with 2 by ring.
  rewrite cos_PI2, sin_PI2.
  destruct sqrt2_facts as [Hp _].
  f_equal; field; lra.
Qed.

Lemma half_turn_down_rotates :
  Quaternion_rotate half_turn_down (mkVector 0 0 (-1)) = unit_z.
Proof.
  destruct sqrt2_facts as [Hp Hs].
  assert (Hi : / sqrt 2 * / sqrt 2 = / 2).
  { rewrite <- Rinv_mult, Hs. reflexivity. }
  unfold half_turn_down, unit_z.
  apply Vector_eq; simpl; ring_simplify; try reflexivity.
  replace (2 * (/ sqrt 2) ^ 2) with (2 * (/ sqrt 2 * / sqrt 2)) by ring.
  rewrite Hi. field.
Qed.


End RotationFacts.

(** ** Unit quaternions and their rotation matrices *)

Section QuaternionFacts.

Lemma axis_angle_normalized_unit (a : Vector) (angle : R) :
  dot a a = 1 ->
  Quaternion_dot (axis_angle_normalized_to_quat a angle)
                 (axis_angle_normalized_to_quat a angle) = 1.
Proof.
  intros Ha. unfold axis_angle_normalized_to_quat, Quaternion_dot. simpl.
  pose proof (sin2_cos2 (angle / 2)) as H. rewrite !Rsqr_def in H.
  unfold dot in Ha.
  replace (_ + _ + _ + _)
    with (cos (angle / 2) * cos (angle / 2)
          + sin (angle / 2) * sin (angle / 2)
            * (x a * x a + y a * y a + z a * z a)) by ring.
  rewrite Ha. lra.
Qed.

Lemma Quaternion_identity_unit :
  Quaternion_dot Quaternion_identity Quaternion_identity = 1.
Proof. unfold Quaternion_dot. simpl. ring. Qed.

Lemma axis_angle_unit (a : Vector) (angle : R) :
  Quaternion_dot (axis_angle_to_quat a angle) (axis_angle_to_quat a angle)
  = 1.
Proof.
  unfold axis_angle_to_quat.
  destruct (Req_dec_T (dot a a) 0) as [E|E].
  - apply Quaternion_identity_unit.
  - apply axis_angle_normalized_unit, normalized_unit.
    intros Hz. apply E. rewrite Hz. unfold dot. simpl. ring.
Qed.

(** The host's rotation between two vectors is always a unit quaternion. *)
Lemma rotation_between_unit (v1 v2 : Vector) :
  Quaternion_dot (rotation_between_vecs_to_quat v1 v2)
                 (rotation_between_vecs_to_quat v1 v2) = 1.
Proof.
  unfold rotation_between_vecs_to_quat.
  destruct (Req_dec_T _ 0) as [E|E].
  - destruct (Rlt_dec 0 _).
    + apply Quaternion_identity_unit.
    + apply axis_angle_unit.
  - apply axis_angle_normalized_unit, normalized_unit.
    intros Hz. apply E. rewrite Hz. unfold dot. simpl. ring.
Qed.








End QuaternionFacts.

(** ** OrientByNormalsOperator: when the steps succeed *)

Section OrientSteps.

Import OrientByNormalsOperator.

Lemma normalized_unit_z : normalized unit_z = unit_z.
Proof. apply normalized_of_unit. unfold dot, unit_z. simpl. ring. Qed.

(** The world-space normal of a run: the inverse transpose of the linear
    part of the world matrix, applied to the normalised sum. *)
Lemma world_normal_ok (o : Object) :
  normalAvg o <> Vector0 -> affine (matrix_world o) ->
  determinant (matrix_world o) <> 0 ->
  world_normal o
  = Ok (Matrix3_matmul_vec
          (Matrix3_transposed (Matrix3_inverse (to_3x3 (matrix_world o))))
          (normalized (normalAvg o))).
Proof.
  intros Hn Ha Hd. unfold world_normal.
  rewrite (norm_of_nonzero_sum o Hn). simpl.
  destruct (inverted_affine _ Ha Hd) as (inv & Hinv & H3).
  rewrite Hinv. simpl. rewrite H3. reflexivity.
Qed.



Lemma rot_ok (o : Object) :
  normalAvg o <> Vector0 -> determinant (matrix_world o) <> 0 ->
  exists r, rot o = Ok r.
Proof.
  intros Hn Hd. unfold rot, world_normal.
  rewrite (norm_of_nonzero_sum o Hn). simpl. unfold inverted.
  destruct (Req_dec_T (determinant (matrix_world o)) 0) as [E|E];
    [contradiction|].
  simpl. eexists. reflexivity.
Qed.

Lemma rot_singular (o : Object) :
  normalAvg o <> Vector0 -> determinant (matrix_world o) = 0 ->
  rot o = Raise "ValueError"%string.
Proof.
  intros Hn Hd. unfold rot, world_normal.
  rewrite (norm_of_nonzero_sum o Hn). simpl. unfold inverted.
  destruct (Req_dec_T (determinant (matrix_world o)) 0) as [E|E];
    [reflexivity | contradiction].
Qed.

Lemma rot_of_zero_sum (o : Object) :
  normalAvg o = Vector0 -> rot o = Raise "ZeroDivisionError"%string.
Proof.
  intros H. unfold rot, world_normal. rewrite (norm_of_zero_sum o H).
  reflexivity.
Qed.

Lemma execute_raise (o : Object) (e : exn) :
  rot o = Raise e ->
  returned (execute o) = Raise e /\ object_after (execute o) = o.
Proof. intros H. unfold execute. rewrite H. split; reflexivity. Qed.

Lemma execute_ok (o : Object) (r : Quaternion) :
  rot o = Ok r ->
  returned (execute o) = Ok FINISHED /\
  object_after (execute o)
  = set_rotation_quaternion (set_rotation_mode_QUATERNION o)
      (Quaternion_matmul r (prior_orientation o)).
Proof. intros H. unfold execute. rewrite H. split; reflexivity. Qed.

Lemma execute_finished_inv (o : Object) :
  returned (execute o) = Ok FINISHED -> exists r, rot o = Ok r.
Proof.
  unfold execute. destruct (rot o) as [r|e]; simpl; intros H.
  - exists r. reflexivity.
  - discriminate H.
Qed.

(** The rotation of a run, when the world matrix is affine. *)
Lemma rot_affine (o : Object) :
  normalAvg o <> Vector0 -> affine (matrix_world o) ->
  determinant (matrix_world o) <> 0 ->
  rot o
  = Ok (rotation_between_vecs_to_quat
          (normalized
             (Matrix3_matmul_vec
                (Matrix3_transposed
                   (Matrix3_inverse (to_3x3 (matrix_world o))))
                (normalized (normalAvg o))))
          unit_z).
Proof.
  intros Hn Ha Hd. unfold rot.
  rewrite (world_normal_ok o Hn Ha Hd). simpl.
  unfold rotation_difference. fold unit_z. rewrite normalized_unit_z.
  reflexivity.
Qed.

End OrientSteps.

(** ** The sample objects *)

Section SampleFacts.

Import OrientByNormalsOperator Samples.

Lemma affine_identity : affine Matrix_identity.
Proof. unfold affine. simpl. repeat split; reflexivity. Qed.

Lemma affine_diagonal (sx sy sz : R) : affine (Matrix_diagonal sx sy sz).
Proof. unfold affine. simpl. repeat split; reflexivity. Qed.

Lemma determinant_identity : determinant Matrix_identity <> 0.
Proof. closed_determinant. Qed.



Lemma unselected_none :
  Forall (fun v => select v = false) (vertices (data unselected)).
Proof. repeat constructor. Qed.




Lemma stretched_sum : normalAvg stretched <> Vector0.
Proof. sum_nonzero. Qed.

Lemma stretched_determinant : determinant (matrix_world stretched) <> 0.
Proof. closed_determinant. Qed.

Lemma down_sum : normalAvg down <> Vector0.
Proof. sum_nonzero. Qed.

Lemma down_turned_sum : normalAvg down_turned <> Vector0.
Proof. sum_nonzero. Qed.

Lemma down_turned_determinant :
  determinant (matrix_world down_turned) <> 0.
Proof. closed_determinant. Qed.

Lemma down_turned_affine : affine (matrix_world down_turned).
Proof. unfold affine. simpl. repeat split; reflexivity. Qed.

End SampleFacts.

(** ** OrientByNormalsOperator: the claims *)

Section OrientClaims.

Import OrientByNormalsOperator Samples.




(** C2 (as amended).  When no vertex is selected, whatever the size of the
    mesh and whatever the world matrix, the operator raises the
    [ZeroDivisionError] of the division by the zero length, and the object
    is left as it was. *)
Theorem empty_selection_raises (o : Object) :
  Forall (fun v => select v = false) (vertices (data o)) ->
  returned (execute o) = Raise "ZeroDivisionError"%string /\
  object_after (execute o) = o.
Proof.
  intros H. apply execute_raise, rot_of_zero_sum, normalAvg_unselected, H.
Qed.

Lemma empty_selection_raises_witness :
  returned (execute unselected) = Raise "ZeroDivisionError"%string /\
  object_after (execute unselected) = unselected.
Proof. apply (empty_selection_raises unselected), unselected_none. Defined.

(** C2 as stated fails: with no vertex selected the exception that escapes
    is not an [EmptySelectionError]. *)
Lemma empty_selection_not_named :
  Forall (fun v => select v = false) (vertices (data unselected)) /\
  returned (execute unselected) <> Raise "EmptySelectionError"%string.
Proof.
  split; [exact unselected_none|].
  destruct (execute_raise unselected _
              (rot_of_zero_sum _ (normalAvg_unselected _ unselected_none)))
    as [H _].
  rewrite H. discriminate.
Qed.





Lemma stretched_normalAvg : normalAvg stretched = unit_x.
Proof. unfold normalAvg, loop. apply Vector_eq; simpl; lra. Qed.



(** On the object stretched twofold along x, the normal along x comes out
    halved, where the linear part itself would double it. *)
Example stretched_world_normal :
  world_normal stretched = Ok (mkVector (/ 2) 0 0) /\
  Matrix3_matmul_vec (to_3x3 (matrix_world stretched)) unit_x
  = mkVector 2 0 0.
Proof.
  split.
  - rewrite (world_normal_ok _ stretched_sum (affine_diagonal 2 1 1)
               stretched_determinant).
    rewrite stretched_normalAvg, normalized_of_unit
      by (unfold dot, unit_x; simpl; ring).
    f_equal. apply Vector_eq; simpl;
      unfold Matrix3_determinant, det3; simpl; field.
  - apply Vector_eq; simpl; ring.
Qed.

(** C5.  On every run that finishes, the rotation mode of the object is
    QUATERNION and its quaternion is the computed rotation multiplied, on
    the left, with the orientation the object had (converted to a
    quaternion by the switch of mode when it was held in another form). *)
Theorem rotation_is_premultiplied (o : Object) :
  returned (execute o) = Ok FINISHED ->
  exists r,
    rot o = Ok r /\
    rotation_mode (object_after (execute o)) = QUATERNION /\
    rotation_quaternion (object_after (execute o))
    = Quaternion_matmul r (prior_orientation o).
Proof.
  intros H. destruct (execute_finished_inv o H) as [r Hr].
  exists r. split; [exact Hr|].
  destruct (execute_ok o r Hr) as [_ Ho]. rewrite Ho.
  split; reflexivity.
Qed.

Lemma down_turned_finishes : returned (execute down_turned) = Ok FINISHED.
Proof.
  destruct (rot_ok down_turned down_turned_sum down_turned_determinant)
    as [r Hr].
  apply (execute_ok _ _ Hr).
Qed.

Lemma rotation_is_premultiplied_witness :
  exists r,
    rot down_turned = Ok r /\
    rotation_mode (object_after (execute down_turned)) = QUATERNION /\
    rotation_quaternion (object_after (execute down_turned))
    = Quaternion_matmul r (prior_orientation down_turned).
Proof.
  apply (rotation_is_premultiplied down_turned), down_turned_finishes.
Defined.

(** C8.  A run writes nothing but the rotation mode and the rotation
    quaternion of the object: the mesh (every vertex with its position,
    normal and selection flag) and every other field are as before. *)
Theorem execute_writes_only_rotation (o : Object) :
  let o' := object_after (execute o) in
  data o' = data o /\
  map co (vertices (data o')) = map co (vertices (data o)) /\
  map normal (vertices (data o')) = map normal (vertices (data o)) /\
  map select (vertices (data o')) = map select (vertices (data o)) /\
  matrix_world o' = matrix_world o /\
  location o' = location o /\
  scale o' = scale o /\
  rotation_euler o' = rotation_euler o /\
  rotation_axis_angle o' = rotation_axis_angle o.
Proof.
  unfold execute. destruct (rot o) as [r|e]; simpl; repeat split.
Qed.

Lemma inverse_transpose_identity (v : Vector) :
  Matrix3_matmul_vec
    (Matrix3_transposed (Matrix3_inverse (to_3x3 Matrix_identity))) v = v.
Proof.
  destruct v. apply Vector_eq; simpl;
    unfold Matrix3_determinant, det3; simpl; field.
Qed.

(** One selected vertex facing straight down, under the identity. *)
Lemma rot_straight_down (o : Object) (v : MeshVertex) :
  matrix_world o = Matrix_identity ->
  vertices (data o) = [v] ->
  select v = true ->
  normal v = mkVector 0 0 (-1) ->
  rot o = Ok half_turn_down.
Proof.
  intros HM Hvs Hsel Hnormal.
  assert (Hsum : normalAvg o = mkVector 0 0 (-1)).
  { unfold normalAvg, loop. rewrite Hvs. simpl. unfold loop_body.
    rewrite Hsel, Hnormal. apply Vector_eq; simpl; lra. }
  assert (Hunit : dot (mkVector 0 0 (-1)) (mkVector 0 0 (-1)) = 1)
    by (unfold dot; simpl; ring).
  assert (Hn : normalAvg o <> Vector0).
  { rewrite Hsum. intros H. injection H. intros. lra. }
  rewrite (rot_affine o Hn); rewrite HM.
  - rewrite inverse_transpose_identity, Hsum.
    rewrite !(normalized_of_unit _ Hunit).
    rewrite rotation_between_down. reflexivity.
  - exact affine_identity.
  - exact determinant_identity.
Qed.

(** C6.  With the identity as world matrix and one selected vertex whose
    normal is (0, 0, -1), the computed rotation is a half turn (a unit
    quaternion whose scalar part is zero), and it turns (0, 0, -1) onto
    (0, 0, 1). *)
Theorem straight_down_half_turn (o : Object) (v : MeshVertex) :
  matrix_world o = Matrix_identity ->
  vertices (data o) = [v] ->
  select v = true ->
  normal v = mkVector 0 0 (-1) ->
  exists r,
    rot o = Ok r /\
    qw r = 0 /\ Quaternion_dot r r = 1 /\
    Quaternion_rotate r (mkVector 0 0 (-1)) = unit_z /\
    1 - / 100000 <= dot (Quaternion_rotate r (mkVector 0 0 (-1))) unit_z.
Proof.
  intros HM Hvs Hsel Hnormal.
  exists half_turn_down.
  split; [apply (rot_straight_down o v HM Hvs Hsel Hnormal)|].
  split; [reflexivity|]. split.
  - rewrite <- rotation_between_down. apply rotation_between_unit.
  - rewrite half_turn_down_rotates. split; [reflexivity|].
    unfold dot, unit_z. simpl. lra.
Qed.

Lemma straight_down_half_turn_witness :
  exists r,
    rot down = Ok r /\
    qw r = 0 /\ Quaternion_dot r r = 1 /\
    Quaternion_rotate r (mkVector 0 0 (-1)) = unit_z /\
    1 - / 100000 <= dot (Quaternion_rotate r (mkVector 0 0 (-1))) unit_z.
Proof.
  apply (straight_down_half_turn down (vertex (mkVector 0 0 (-1)) true));
    reflexivity.
Defined.

Lemma rotation_between_same : 
  rotation_between_vecs_to_quat unit_z unit_z = Quaternion_identity.
Proof.
  unfold rotation_between_vecs_to_quat, cross, dot, unit_z. simpl.
  destruct (Req_dec_T _ 0) as [_|E]; [|exfalso; apply E; ring].
  destruct (Rlt_dec 0 _) as [_|H]; [reflexivity|].
  exfalso. apply H. lra.
Qed.


Lemma Matrix_rotated_to_3x3 (q : Quaternion) (m : Matrix) :
  to_3x3 (Matrix_rotated q m)
  = Matrix3_matmul (Quaternion_to_matrix q) (to_3x3 m).
Proof. reflexivity. Qed.

Lemma Quaternion_to_matrix_matmul (p q : Quaternion) :
  Quaternion_to_matrix (Quaternion_matmul p q)
  = Matrix3_matmul (Quaternion_to_matrix p) (Quaternion_to_matrix q).
Proof. destruct p, q. apply Matrix3_eq; simpl; ring. Qed.

(** Turning the world matrix by [r] is what multiplying the orientation by
    [r] on the left does: when the linear part is the rotation of [q]
    applied after some matrix [s] (the scaling), the turned linear part is
    the rotation of [r @ q] applied after [s]. *)
Lemma Matrix_rotated_premultiplies (r q : Quaternion) (s : Matrix3)
  (m : Matrix) :
  to_3x3 m = Matrix3_matmul (Quaternion_to_matrix q) s ->
  to_3x3 (Matrix_rotated r m)
  = Matrix3_matmul (Quaternion_to_matrix (Quaternion_matmul r q)) s.
Proof.
  intros H.
  rewrite Matrix_rotated_to_3x3, H, Quaternion_to_matrix_matmul.
  symmetry. apply Matrix3_matmul_assoc.
Qed.




(** The rotation is composed, not stored in place of the old one: the
    object already turned a quarter turn about z ends with the product of
    the half turn and that quarter turn. *)
Example down_turned_composed :
  rot down_turned = Ok half_turn_down /\
  rotation_quaternion (object_after (execute down_turned))
  = mkQuaternion 0 (-1) 0 0.
Proof.
  assert (Hsum : normalAvg down_turned = mkVector 0 0 (-1))
    by (unfold normalAvg, loop; apply Vector_eq; simpl; lra).
  assert (Hunit : dot (mkVector 0 0 (-1)) (mkVector 0 0 (-1)) = 1)
    by (unfold dot; simpl; ring).
  assert (Hr : rot down_turned = Ok half_turn_down).
  { rewrite (rot_affine _ down_turned_sum down_turned_affine
               down_turned_determinant).
    rewrite Hsum, (normalized_of_unit _ Hunit).
    replace (Matrix3_matmul_vec _ _) with (mkVector 0 0 (-1)).
    - rewrite (normalized_of_unit _ Hunit), rotation_between_down.
      reflexivity.
    - apply Vector_eq; simpl; unfold Matrix3_determinant, det3; simpl;
        field. }
  split; [exact Hr|].
  destruct (execute_ok _ _ Hr) as [_ Ho]. rewrite Ho.
  destruct sqrt2_facts as [Hp Hs].
  assert (Hi : / sqrt 2 * / sqrt 2 = / 2)
    by (rewrite <- Rinv_mult, Hs; reflexivity).
  unfold half_turn_down, prior_orientation. simpl.
  unfold Quaternion_matmul. simpl.
  set (m := / sqrt 2) in *. f_equal; nra.
Qed.

End OrientClaims.

(** ** OrientByNormalsOperator: further properties *)

Section OrientFurther.

Import OrientByNormalsOperator Samples MoreSamples.

(** The loop adds up, and prints, the normals of the selected vertices. *)
Lemma loop_body_fold (vs : list MeshVertex) (acc : Vector)
  (out : list Vector) :
  fold_left loop_body vs (acc, out)
  = (fold_left Vector_add (map normal (filter select vs)) acc,
     out ++ map normal (filter select vs)).
Proof.
  revert acc out. induction vs as [|v vs IH]; intros acc out.
  - simpl. rewrite app_nil_r. reflexivity.
  - simpl. unfold loop_body at 2. destruct (select v); simpl.
    + rewrite IH. rewrite <- app_assoc. reflexivity.
    + apply IH.
Qed.

Lemma normalAvg_fold (o : Object) :
  normalAvg o
  = fold_left Vector_add (map normal (filter select (vertices (data o))))
      Vector0.
Proof. unfold normalAvg, loop. rewrite loop_body_fold. reflexivity. Qed.






Lemma Quaternion_matmul_1_l (q : Quaternion) :
  Quaternion_matmul Quaternion_identity q = q.
Proof. destruct q. unfold Quaternion_matmul. simpl. f_equal; ring. Qed.

Lemma Quaternion_dot_matmul (p q : Quaternion) :
  Quaternion_dot (Quaternion_matmul p q) (Quaternion_matmul p q)
  = Quaternion_dot p p * Quaternion_dot q q.
Proof. destruct p, q. unfold Quaternion_dot. simpl. ring. Qed.

(** Whatever the world matrix, a rotation that is computed is a unit
    quaternion. *)
Lemma rot_unit (o : Object) (r : Quaternion) :
  rot o = Ok r -> Quaternion_dot r r = 1.
Proof.
  unfold rot. destruct (world_normal o) as [w|e]; simpl; intros H.
  - injection H as H. rewrite <- H. apply rotation_between_unit.
  - discriminate H.
Qed.

Lemma sum_zero_dec (o : Object) :
  {normalAvg o = Vector0} + {normalAvg o <> Vector0}.
Proof.
  destruct (Req_dec_T (dot (normalAvg o) (normalAvg o)) 0) as [E|E].
  - left. apply dot_self_zero, E.
  - right. intros Hz. apply E. rewrite Hz. unfold dot. simpl. ring.
Qed.




(** X3.  Whether the run finishes or raises, the console receives the
    normals of the selected vertices, in mesh order and nothing else, and
    the sum the operator normalises is the sum of exactly these. *)
Theorem printed_selected_normals (o : Object) :
  printed (execute o) = map normal (filter select (vertices (data o))) /\
  normalAvg o = fold_left Vector_add (printed (execute o)) Vector0.
Proof.
  assert (H : printed (execute o)
              = map normal (filter select (vertices (data o)))).
  { unfold execute. destruct (rot o); simpl; unfold loop;
      rewrite loop_body_fold; reflexivity. }
  split; [exact H|]. rewrite H. apply normalAvg_fold.
Qed.

(** X4.  A run that finishes multiplies the orientation by a unit
    quaternion: the squared length of the object's quaternion is the one
    its orientation had, so a unit orientation stays a unit orientation. *)
Theorem execute_keeps_quaternion_length (o : Object) :
  returned (execute o) = Ok FINISHED ->
  Quaternion_dot (rotation_quaternion (object_after (execute o)))
                 (rotation_quaternion (object_after (execute o)))
  = Quaternion_dot (prior_orientation o) (prior_orientation o).
Proof.
  intros H. destruct (execute_finished_inv o H) as [r Hr].
  destruct (execute_ok o r Hr) as [_ Ho]. rewrite Ho. simpl.
  rewrite Quaternion_dot_matmul, (rot_unit o r Hr). ring.
Qed.

Lemma execute_keeps_quaternion_length_witness :
  Quaternion_dot (rotation_quaternion (object_after (execute down_turned)))
                 (rotation_quaternion (object_after (execute down_turned)))
  = Quaternion_dot (prior_orientation down_turned)
                   (prior_orientation down_turned).
Proof.
  apply (execute_keeps_quaternion_length down_turned).
  exact down_turned_finishes.
Defined.

Lemma selected_normals_eq (vs1 vs2 : list MeshVertex) :
  map (fun v => (normal v, select v)) vs1
  = map (fun v => (normal v, select v)) vs2 ->
  map normal (filter select vs1) = map normal (filter select vs2).
Proof.
  revert vs2. induction vs1 as [|v1 vs1 IH]; intros [|v2 vs2] H;
    simpl in H; try discriminate H.
  - reflexivity.
  - injection H as Hn Hs Hrest. simpl. rewrite Hs.
    destruct (select v2); simpl; [rewrite Hn; f_equal|]; apply IH, Hrest.
Qed.

(** X5.  The rotation does not depend on where the vertices or the object
    are: two objects whose vertices have the same normals and selection
    flags, with affine world matrices that have the same linear part,
    compute the same rotation or raise the same exception, whatever the
    vertex positions and the translations. *)
Theorem rot_ignores_positions_and_translation (o1 o2 : Object) :
  map (fun v => (normal v, select v)) (vertices (data o1))
  = map (fun v => (normal v, select v)) (vertices (data o2)) ->
  affine (matrix_world o1) ->
  affine (matrix_world o2) ->
  to_3x3 (matrix_world o1) = to_3x3 (matrix_world o2) ->
  rot o1 = rot o2.
Proof.
  intros Hvs Ha1 Ha2 H3.
  assert (Hsum : normalAvg o1 = normalAvg o2)
    by (rewrite !normalAvg_fold, (selected_normals_eq _ _ Hvs);
        reflexivity).
  assert (Hdet : determinant (matrix_world o1)
                 = determinant (matrix_world o2))
    by (rewrite (determinant_affine _ Ha1), (determinant_affine _ Ha2), H3;
        reflexivity).
  destruct (sum_zero_dec o1) as [Hz|Hn].
  - rewrite (rot_of_zero_sum o1 Hz).
    rewrite Hsum in Hz. rewrite (rot_of_zero_sum o2 Hz). reflexivity.
  - assert (Hn2 : normalAvg o2 <> Vector0) by (rewrite <- Hsum; exact Hn).
    destruct (Req_dec_T (determinant (matrix_world o1)) 0) as [Hd|Hd].
    + rewrite (rot_singular o1 Hn Hd).
      rewrite Hdet in Hd. rewrite (rot_singular o2 Hn2 Hd). reflexivity.
    + rewrite (rot_affine o1 Hn Ha1 Hd).
      rewrite Hdet in Hd. rewrite (rot_affine o2 Hn2 Ha2 Hd).
      rewrite Hsum, H3. reflexivity.
Qed.

Lemma rot_ignores_positions_and_translation_witness :
  rot stretched = rot stretched_moved.
Proof.
  apply (rot_ignores_positions_and_translation stretched stretched_moved).
  - reflexivity.
  - apply affine_diagonal.
  - unfold affine. simpl. repeat split; reflexivity.
  - reflexivity.
Defined.

Lemma length_Vector_mul (c : R) (v : Vector) :
  0 < c -> length (Vector_mul c v) = c * length v.
Proof.
  intros Hc. unfold length. rewrite dot_scale.
  rewrite sqrt_mult; [|nra|apply dot_self_nonneg].
  rewrite sqrt_square; [reflexivity|lra].
Qed.

(** Normalising forgets a positive factor. *)
Lemma normalized_Vector_mul (c : R) (v : Vector) :
  0 < c -> normalized (Vector_mul c v) = normalized v.
Proof.
  intros Hc. unfold normalized. rewrite dot_scale.
  destruct (Req_dec_T (dot v v) 0) as [E|E].
  - destruct (Req_dec_T (c * c * dot v v) 0) as [_|E'];
      [reflexivity | exfalso; apply E'; rewrite E; ring].
  - destruct (Req_dec_T (c * c * dot v v) 0) as [E'|_].
    + exfalso. apply E. apply Rmult_integral in E'.
      destruct E' as [E'|E']; [nra | exact E'].
    + rewrite (length_Vector_mul c v Hc).
      assert (HL : 0 < length v).
      { apply length_pos. intros Hz. apply E. rewrite Hz.
        unfold dot. simpl. ring. }
      destruct v. unfold Vector_mul. simpl. f_equal; field; lra.
Qed.







Lemma normalized_vertical (w : Vector) :
  x w = 0 -> y w = 0 -> z w <> 0 ->
  normalized w = mkVector 0 0 (if Rlt_dec 0 (z w) then 1 else -1).
Proof.
  intros Hx Hy Hz. destruct w as [wx wy wz]. simpl in *. subst wx wy.
  destruct (Rlt_dec 0 wz) as [Hp|Hp].
  - replace (mkVector 0 0 wz) with (Vector_mul wz unit_z)
      by (apply Vector_eq; simpl; ring).
    rewrite (normalized_Vector_mul wz unit_z Hp). apply normalized_unit_z.
  - assert (Hn : 0 < - wz) by lra.
    replace (mkVector 0 0 wz) with (Vector_mul (- wz) (mkVector 0 0 (-1)))
      by (apply Vector_eq; simpl; ring).
    rewrite (normalized_Vector_mul _ _ Hn).
    apply normalized_of_unit. unfold dot. simpl. ring.
Qed.

Lemma rot_of_world_normal (o : Object) (w : Vector) :
  world_normal o = Ok w ->
  rot o = Ok (rotation_between_vecs_to_quat (normalized w) unit_z).
Proof.
  intros H. unfold rot. rewrite H. simpl. unfold rotation_difference.
  fold unit_z. rewrite normalized_unit_z. reflexivity.
Qed.

(** X8.  When the world-space normal already points up (a positive multiple
    of (0, 0, 1)), the computed rotation is the identity quaternion and the
    run finishes with the orientation the object had. *)
Theorem aligned_run_keeps_orientation (o : Object) (w : Vector) :
  world_normal o = Ok w ->
  x w = 0 -> y w = 0 -> 0 < z w ->
  rot o = Ok Quaternion_identity /\
  returned (execute o) = Ok FINISHED /\
  rotation_quaternion (object_after (execute o)) = prior_orientation o.
Proof.
  intros Hw Hx Hy Hz.
  assert (Hr : rot o = Ok Quaternion_identity).
  { rewrite (rot_of_world_normal o w Hw).
    rewrite (normalized_vertical w Hx Hy) by lra.
    destruct (Rlt_dec 0 (z w)) as [_|H]; [|contradiction].
    fold unit_z. rewrite rotation_between_same. reflexivity. }
  split; [exact Hr|].
  destruct (execute_ok o _ Hr) as [Hf Ho].
  split; [exact Hf|]. rewrite Ho. simpl. apply Quaternion_matmul_1_l.
Qed.

Lemma facing_up_world_normal : world_normal facing_up = Ok unit_z.
Proof.
  assert (Hsum : normalAvg facing_up = unit_z)
    by (unfold normalAvg, loop; apply Vector_eq; simpl; lra).
  assert (Hn : normalAvg facing_up <> Vector0).
  { rewrite Hsum. intros H. injection H. intros. lra. }
  rewrite (world_normal_ok facing_up Hn affine_identity
             determinant_identity).
  replace (matrix_world facing_up) with Matrix_identity by reflexivity.
  rewrite inverse_transpose_identity, Hsum, normalized_unit_z.
  reflexivity.
Qed.

Lemma aligned_run_keeps_orientation_witness :
  rot facing_up = Ok Quaternion_identity /\
  returned (execute facing_up) = Ok FINISHED /\
  rotation_quaternion (object_after (execute facing_up))
  = prior_orientation facing_up.
Proof.
  apply (aligned_run_keeps_orientation facing_up unit_z).
  - exact facing_up_world_normal.
  - reflexivity.
  - reflexivity.
  - simpl. lra.
Defined.

(** X9.  When the world-space normal points straight down (a negative
    multiple of (0, 0, 1)), whatever the mesh and the world matrix that
    produce it, the computed rotation is the half turn about the axis
    (-1, -1, 0): the quaternion (0, -1/sqrt 2, -1/sqrt 2, 0). *)
Theorem downward_run_half_turn (o : Object) (w : Vector) :
  world_normal o = Ok w ->
  x w = 0 -> y w = 0 -> z w < 0 ->
  rot o = Ok half_turn_down /\
  Quaternion_rotate half_turn_down (normalized w) = unit_z.
Proof.
  intros Hw Hx Hy Hz.
  assert (Hn : normalized w = mkVector 0 0 (-1)).
  { rewrite (normalized_vertical w Hx Hy) by lra.
    destruct (Rlt_dec 0 (z w)) as [H|_]; [lra | reflexivity]. }
  split.
  - rewrite (rot_of_world_normal o w Hw), Hn, rotation_between_down.
    reflexivity.
  - rewrite Hn. apply half_turn_down_rotates.
Qed.

Lemma down_world_normal : world_normal down = Ok (mkVector 0 0 (-1)).
Proof.
  assert (Hsum : normalAvg down = mkVector 0 0 (-1))
    by (unfold normalAvg, loop; apply Vector_eq; simpl; lra).
  rewrite (world_normal_ok down down_sum affine_identity
             determinant_identity).
  replace (matrix_world down) with Matrix_identity by reflexivity.
  rewrite inverse_transpose_identity, Hsum.
  rewrite normalized_of_unit; [reflexivity|].
  unfold dot. simpl. ring.
Qed.

Lemma downward_run_half_turn_witness :
  rot down = Ok half_turn_down /\
  Quaternion_rotate half_turn_down (normalized (mkVector 0 0 (-1)))
  = unit_z.
Proof.
  apply (downward_run_half_turn down (mkVector 0 0 (-1))).
  - exact down_world_normal.
  - reflexivity.
  - reflexivity.
  - simpl. lra.
Defined.



End OrientFurther.

(** ** CubeCutOperator and CustomUVOperator: further properties *)

Section HostFurther.

Context {Scene Obj Mod : Type} {host : Bpy Scene Obj Mod}.




(** X13.  The cutting phase with two objects selected and no active object
    raises [AttributeError] before it has written anything: the scene and
    the events are as they were. *)
Theorem cut_without_active_object_raises (scene : Scene)
  (log : list event) :
  List.length (context_selected_objects scene) = 2%nat ->
  context_active_object scene = None ->
  CubeCutOperator.execute false (scene, log)
  = (Raise "AttributeError"%string, (scene, log)).
Proof.
  intros Hlen Hact.
  destruct (context_selected_objects scene) as [|a [|b [|c l]]] eqn:Hsel;
    try discriminate Hlen.
  unfold CubeCutOperator.execute, CubeCutOperator.cut, mbind, read, ret,
    getitem, not_None, raise. simpl.
  repeat (rewrite ?Hsel, ?Hact; simpl). reflexivity.
Qed.

(** X14.  The bounds phase ([first_call = True]) looks at no selection and
    never cancels: it runs exactly one host operator, the creation of the
    cube, and then marks as BOUNDS the object that is active after that
    creation; if the host then has no active object it raises
    [AttributeError], the cube staying added. *)
Theorem bounds_phase_adds_one_cube (scene : Scene) :
  let added := snd (ops mesh_primitive_cube_add scene) in
  let out := CubeCutOperator.execute true (scene, []) in
  called_ops (events_of out) = [mesh_primitive_cube_add] /\
  match context_active_object added with
  | Some cube =>
      fst out = Ok FINISHED /\
      scene_of out = set_display_type cube "BOUNDS" added
  | None =>
      fst out = Raise "AttributeError"%string /\ scene_of out = added
  end.
Proof.
  unfold CubeCutOperator.execute, events_of, scene_of, mbind, read, ret,
    not_None, raise, write, call. simpl.
  destruct (ops mesh_primitive_cube_add scene) as [st added]. simpl.
  destruct (context_active_object added) as [cube|]; simpl;
    repeat split; reflexivity.
Qed.

(** X15.  With no active object, or with an active object that has no mesh
    vertices to count, the UV operator raises [AttributeError] before it
    has called or printed anything: the scene and the events are as they
    were. *)
Theorem uv_without_mesh_raises (scene : Scene) (log : list event) :
  (context_active_object scene = None \/
   exists lowPoly, context_active_object scene = Some lowPoly /\
                   data_vertices_len scene lowPoly = None) ->
  CustomUVOperator.execute (scene, log)
  = (Raise "AttributeError"%string, (scene, log)).
Proof.
  unfold CustomUVOperator.execute, CustomUVOperator.len_vertices, mbind,
    read, not_None, raise, ret. simpl.
  intros [Hact | (lowPoly & Hact & Hlen)]; rewrite Hact; simpl.
  - reflexivity.
  - rewrite Hlen. reflexivity.
Qed.


End HostFurther.



Lemma cut_without_active_object_raises_witness :
  CubeCutOperator.execute false (MoreSamples.scene_no_active, [])
  = (Raise "AttributeError"%string, (MoreSamples.scene_no_active, [])).
Proof.
  apply (cut_without_active_object_raises MoreSamples.scene_no_active []);
    reflexivity.
Defined.

Lemma uv_without_mesh_raises_witness :
  CustomUVOperator.execute (MoreSamples.scene_no_mesh, [])
  = (Raise "AttributeError"%string, (MoreSamples.scene_no_mesh, [])).
Proof.
  apply (uv_without_mesh_raises MoreSamples.scene_no_mesh []).
  right. exists 3%nat. split; reflexivity.
Defined.


(** ** register and unregister: properties *)

Section RegistrationProperties.

Import Registration.

Lemma registered_iff (c : string) (h : Host) :
  registered c h = true <-> In c (classes h).
Proof.
  unfold registered. rewrite existsb_exists. split.
  - intros (c' & Hin & E). apply String.eqb_eq in E. subst c'. exact Hin.
  - intros Hin. exists c. split; [exact Hin | apply String.eqb_refl].
Qed.

Lemma not_registered_iff (c : string) (h : Host) :
  registered c h = false <-> ~ In c (classes h).
Proof.
  rewrite <- registered_iff. destruct (registered c h); split;
    intros H; try reflexivity; try discriminate; try tauto;
    exfalso; apply H; reflexivity.
Qed.

Lemma addon_classes_NoDup : NoDup addon_classes.
Proof.
  unfold addon_classes.
  repeat (constructor; [simpl; intuition discriminate|]). constructor.
Qed.

Lemma filter_other_classes (c : string) (l : list string) :
  ~ In c l -> filter (fun c' => negb (String.eqb c c')) l = l.
Proof.
  induction l as [|a l IH]; intros Hn; [reflexivity|].
  simpl. destruct (String.eqb c a) eqn:E.
  - apply String.eqb_eq in E. subst a. exfalso. apply Hn. left.
    reflexivity.
  - simpl. f_equal. apply IH. intros Hin. apply Hn. right. exact Hin.
Qed.

Lemma In_filter_other (c c' : string) (l : list string) :
  c' <> c ->
  (In c' (filter (fun a => negb (String.eqb c a)) l) <-> In c' l).
Proof.
  intros Hne. rewrite filter_In. split; [tauto|].
  intros Hin. split; [exact Hin|].
  destruct (String.eqb c c') eqn:E; [|reflexivity].
  apply String.eqb_eq in E. congruence.
Qed.

(** Registering classes that are new and distinct appends them. *)
Lemma register_new_classes (cs : list string) (h : Host) :
  NoDup cs -> (forall c, In c cs -> ~ In c (classes h)) ->
  each_class register_class cs h
  = (Ok tt, mkHost (classes h ++ cs) (Object_properties h)).
Proof.
  intros Hnd. revert h. induction Hnd as [|c cs Hc _ IH]; intros h Hnew.
  - simpl. rewrite app_nil_r. destruct h. reflexivity.
  - simpl. unfold register_class.
    assert (Hr : registered c h = false)
      by (apply not_registered_iff, Hnew; left; reflexivity).
    rewrite Hr. rewrite IH.
    + simpl. rewrite <- app_assoc. reflexivity.
    + simpl. intros c' Hin Hin'. apply in_app_or in Hin'.
      destruct Hin' as [Hin'|[E|[]]].
      * apply (Hnew c'); [right; exact Hin | exact Hin'].
      * subst c'. contradiction.
Qed.

(** Unregistering distinct classes that sit at the end of the registry
    removes them. *)
Lemma unregister_appended_classes (cs l : list string)
  (props : list (string * FloatProperty)) :
  NoDup cs -> (forall c, In c cs -> ~ In c l) ->
  each_class unregister_class cs (mkHost (l ++ cs) props)
  = (Ok tt, mkHost l props).
Proof.
  intros Hnd. induction Hnd as [|c cs Hc _ IH]; intros Hnew.
  - simpl. rewrite app_nil_r. reflexivity.
  - simpl. unfold unregister_class.
    assert (Hr : registered c (mkHost (l ++ c :: cs) props) = true).
    { apply registered_iff. simpl. apply in_or_app. right. left.
      reflexivity. }
    rewrite Hr. simpl.
    rewrite filter_app. simpl. rewrite String.eqb_refl. simpl.
    rewrite (filter_other_classes c l)
      by (apply Hnew; left; reflexivity).
    rewrite (filter_other_classes c cs Hc).
    apply IH. intros c' Hin. apply Hnew. right. exact Hin.
Qed.

Lemma get_set_Object_property (a : string) (p : FloatProperty) (h : Host) :
  get_Object_property a (set_Object_property a p h) = Some p.
Proof.
  unfold get_Object_property, set_Object_property. simpl.
  rewrite String.eqb_refl. reflexivity.
Qed.

(** X17.  On a host where none of the six classes is registered,
    [register] succeeds and [unregister] after it succeeds too and leaves
    the registered classes exactly as they were before; but the two
    properties that [register] added to [bpy.types.Object] are still
    there: [unregister] does not remove them. *)
Theorem register_unregister_round_trip (h : Host) :
  (forall c, In c addon_classes -> registered c h = false) ->
  let h1 := snd (register h) in
  let h2 := snd (unregister h1) in
  fst (register h) = Ok tt /\
  fst (unregister h1) = Ok tt /\
  classes h2 = classes h /\
  get_Object_property "decimateCollaps" h2 = Some decimateCollaps /\
  get_Object_property "decimatePlanar" h2 = Some decimatePlanar.
Proof.
  intros Hnew.
  assert (Hnew' : forall c, In c addon_classes -> ~ In c (classes h))
    by (intros c Hin; apply not_registered_iff, Hnew, Hin).
  assert (Hreg : register h
                 = (Ok tt,
                    set_Object_property "decimatePlanar" decimatePlanar
                      (set_Object_property "decimateCollaps"
                         decimateCollaps
                         (mkHost (classes h ++ addon_classes)
                                 (Object_properties h))))).
  { unfold register.
    rewrite (register_new_classes addon_classes h addon_classes_NoDup
               Hnew').
    reflexivity. }
  rewrite Hreg. cbv zeta. cbn [fst snd].
  set (h1 := set_Object_property _ _ _).
  assert (Hun : unregister h1
                = (Ok tt, mkHost (classes h) (Object_properties h1))).
  { unfold unregister.
    apply (unregister_appended_classes addon_classes (classes h)
             (Object_properties h1) addon_classes_NoDup Hnew'). }
  rewrite Hun. cbn [fst snd].
  repeat split; reflexivity.
Qed.

Lemma fresh_host_new :
  forall c, In c addon_classes -> registered c fresh_host = false.
Proof.
  intros c Hin. apply not_registered_iff. simpl in *.
  intros [E|[]]. subst c. intuition discriminate.
Qed.

Lemma register_unregister_round_trip_witness :
  let h1 := snd (register fresh_host) in
  let h2 := snd (unregister h1) in
  fst (register fresh_host) = Ok tt /\
  fst (unregister h1) = Ok tt /\
  classes h2 = classes fresh_host /\
  get_Object_property "decimateCollaps" h2 = Some decimateCollaps /\
  get_Object_property "decimatePlanar" h2 = Some decimatePlanar.
Proof.
  apply (register_unregister_round_trip fresh_host), fresh_host_new.
Defined.

Lemma register_registered_class (cs : list string) (h : Host)
  (c : string) :
  In c cs -> registered c h = true ->
  exists h',
    each_class register_class cs h = (Raise "ValueError"%string, h') /\
    Object_properties h' = Object_properties h /\
    (match cs with
     | c0 :: _ => registered c0 h = true -> h' = h
     | [] => True
     end).
Proof.
  revert h. induction cs as [|c0 cs IH]; intros h Hin Hreg; [destruct Hin|].
  simpl. unfold register_class.
  destruct (registered c0 h) eqn:E0.
  - exists h. repeat split; reflexivity.
  - destruct Hin as [E|Hin]; [subst c0; congruence|].
    destruct (IH (mkHost (classes h ++ [c0]) (Object_properties h)) Hin)
      as (h' & Hrun & Hprops & _).
    + apply registered_iff. simpl. apply in_or_app. left.
      apply registered_iff, Hreg.
    + exists h'. split; [exact Hrun|]. split; [exact Hprops|].
      intros H. discriminate H.
Qed.

(** X18.  [register] on a host where one of the six classes is already
    registered raises [ValueError] and adds neither property to
    [bpy.types.Object]; when that class is the first one,
    CubeCutOperator, as after a first [register], the host is left exactly
    as it was. *)
Theorem register_raises_when_registered (h : Host) (c : string) :
  In c addon_classes ->
  registered c h = true ->
  fst (register h) = Raise "ValueError"%string /\
  Object_properties (snd (register h)) = Object_properties h /\
  (registered "CubeCutOperator" h = true -> snd (register h) = h).
Proof.
  intros Hin Hreg.
  destruct (register_registered_class addon_classes h c Hin Hreg)
    as (h' & Hrun & Hprops & Hfirst).
  unfold register. rewrite Hrun. cbn [fst snd].
  split; [reflexivity|]. split; [exact Hprops | exact Hfirst].
Qed.

Lemma register_raises_when_registered_witness :
  fst (register panel_host) = Raise "ValueError"%string /\
  Object_properties (snd (register panel_host))
  = Object_properties panel_host /\
  (registered "CubeCutOperator" panel_host = true ->
   snd (register panel_host) = panel_host).
Proof.
  apply (register_raises_when_registered panel_host "PhotogrammetryPanel").
  - simpl. tauto.
  - reflexivity.
Defined.

(** The panel being registered beforehand, [register] has registered the
    five operators by the time it raises. *)
Example register_partial :
  register panel_host
  = (Raise "ValueError"%string,
     mkHost ["OtherOperator"; "PhotogrammetryPanel"; "CubeCutOperator";
             "CustomBakeOperator"; "CustomUVOperator";
             "OrientByNormalsOperator"; "LowPolyOperator"]%string []).
Proof. reflexivity. Qed.

Lemma unregister_classes (cs : list string) :
  NoDup cs ->
  forall h,
    (fst (each_class unregister_class cs h) = Ok tt <->
     forall c, In c cs -> registered c h = true) /\
    (fst (each_class unregister_class cs h) = Ok tt \/
     fst (each_class unregister_class cs h) = Raise "RuntimeError"%string)
    /\
    Object_properties (snd (each_class unregister_class cs h))
    = Object_properties h.
Proof.
  induction 1 as [|c cs Hc _ IH]; intros h.
  - simpl. split; [|split; [left; reflexivity | reflexivity]].
    split; [intros _ c [] | reflexivity].
  - simpl. unfold unregister_class.
    destruct (registered c h) eqn:E.
    + set (h' := mkHost _ _).
      destruct (IH h') as (Hiff & Hcases & Hprops).
      assert (Hsame : forall c', In c' cs ->
                registered c' h' = registered c' h).
      { intros c' Hin.
        assert (Hne : c' <> c) by (intros Heq; subst c'; contradiction).
        destruct (registered c' h) eqn:E'.
        - apply registered_iff. apply registered_iff in E'.
          unfold h'. simpl. apply In_filter_other; assumption.
        - apply not_registered_iff. apply not_registered_iff in E'.
          unfold h'. simpl. rewrite In_filter_other; assumption. }
      split; [|split; [exact Hcases | exact Hprops]].
      rewrite Hiff. split.
      * intros Hall c' [Heq|Hin]; [subst c'; exact E|].
        rewrite <- (Hsame c' Hin). apply Hall, Hin.
      * intros Hall c' Hin. rewrite (Hsame c' Hin). apply Hall. right.
        exact Hin.
    + simpl. split; [|split; [right; reflexivity | reflexivity]].
      split; [intros H; discriminate H|].
      intros Hall. rewrite (Hall c) in E by (left; reflexivity).
      discriminate E.
Qed.

(** X19.  [unregister] succeeds exactly when all six classes are
    registered; otherwise it raises [RuntimeError]; and in no case does it
    touch the properties added to [bpy.types.Object]. *)
Theorem unregister_succeeds_iff_registered (h : Host) :
  (fst (unregister h) = Ok tt <->
   forall c, In c addon_classes -> registered c h = true) /\
  (fst (unregister h) = Ok tt \/
   fst (unregister h) = Raise "RuntimeError"%string) /\
  Object_properties (snd (unregister h)) = Object_properties h.
Proof. apply unregister_classes, addon_classes_NoDup. Qed.

End RegistrationProperties.

(** ** CustomBakeOperator: properties *)

Section BakeProperties.

Import CustomBakeOperator.

Context {Scene Obj Mod Mat Img Node : Type}
        {host : Bpy Scene Obj Mod}
        {data_host : BpyData Scene Obj Mat Img Node}.





(** The loop of [selectNode] clears the flag of each node it visits. *)
Lemma for_each_deselect (nodes : list Node) (scene : Scene)
  (log : list bake_event) :
  for_each nodes (fun n => write "select" (set_node_select n false))
    (scene, log)
  = (Ok tt,
     (fold_left (fun s n => set_node_select n false s) nodes scene,
      log ++ map (fun _ => Did (Wrote "select")) nodes)).
Proof.
  revert scene log. induction nodes as [|n nodes IH]; intros scene log.
  - simpl. rewrite app_nil_r. reflexivity.
  - simpl. unfold bind at 1, write at 1. simpl. rewrite IH.
    rewrite <- app_assoc. reflexivity.
Qed.

Lemma selectNode_run (mat : Mat) (node : Node) (scene : Scene)
  (log : list bake_event) :
  selectNode mat node (scene, log)
  = (Ok tt,
     (set_nodes_active mat node
        (set_node_select node true
           (fold_left (fun s n => set_node_select n false s)
              (node_tree_nodes scene mat) scene)),
      log ++ map (fun _ => Did (Wrote "select")) (node_tree_nodes scene mat)
          ++ [Did (Wrote "select"); Did (Wrote "nodes.active")])).
Proof.
  unfold selectNode, bind at 1, read. simpl.
  unfold bind at 1. rewrite for_each_deselect.
  unfold bind, write. simpl. rewrite <- !app_assoc. reflexivity.
Qed.






(** X20.  With fewer than two objects selected, the bake operator raises
    [IndexError] at once: the scene and the events are as they were. *)
Theorem bake_needs_two_selected (scene : Scene) (log : list bake_event) :
  (List.length (context_selected_objects scene) < 2)%nat ->
  execute (scene, log) = (Raise "IndexError"%string, (scene, log)).
Proof.
  intros Hlen.
  destruct (context_selected_objects scene) as [|a [|b l]] eqn:Hsel;
    simpl in Hlen; try lia;
    unfold execute, bind, read, getitem, raise, ret; simpl;
    repeat (rewrite ?Hsel; simpl); reflexivity.
Qed.



End BakeProperties.

Lemma bake_needs_two_selected_witness :
  CustomBakeOperator.execute (ToyData.lonely, [])
  = (Raise "IndexError"%string, (ToyData.lonely, [])).
Proof.
  apply (bake_needs_two_selected ToyData.lonely []). simpl. lia.
Defined.



(** ** selectNode, on a host whose selection flags behave as flags *)

Section SelectNode.

Import CustomBakeOperator.

Context {Scene Obj Mod Mat Img Node : Type}
        {host : Bpy Scene Obj Mod}
        {data_host : BpyData Scene Obj Mat Img Node}.

Variable Node_eq_dec : forall n n' : Node, {n = n'} + {n <> n'}.

(** What is asked of the host: a flag that is set reads back, setting one
    node's flag leaves the flags of the others, and making a node active
    leaves every flag and reads back. *)
Hypothesis select_same :
  forall s n b, node_select (set_node_select n b s) n = b.
Hypothesis select_other :
  forall s n n' b,
    n <> n' -> node_select (set_node_select n b s) n' = node_select s n'.
Hypothesis select_active :
  forall s m n n', node_select (set_nodes_active m n s) n' = node_select s n'.
Hypothesis active_set :
  forall s m n, nodes_active (set_nodes_active m n s) m = Some n.

Lemma deselect_other (nodes : list Node) (s : Scene) (n : Node) :
  ~ In n nodes ->
  node_select (fold_left (fun s n => set_node_select n false s) nodes s) n
  = node_select s n.
Proof.
  revert s. induction nodes as [|a nodes IH]; intros s Hn; [reflexivity|].
  simpl. rewrite IH by (intros H; apply Hn; right; exact H).
  apply select_other. intros E. apply Hn. left. exact E.
Qed.

Lemma deselect_visited (nodes : list Node) (s : Scene) (n : Node) :
  In n nodes ->
  node_select (fold_left (fun s n => set_node_select n false s) nodes s) n
  = false.
Proof.
  revert s. induction nodes as [|a nodes IH]; intros s Hin; [destruct Hin|].
  simpl. destruct (in_dec Node_eq_dec n nodes) as [H|H].
  - apply IH, H.
  - destruct Hin as [E|Hin]; [subst a | contradiction].
    rewrite (deselect_other nodes _ n H). apply select_same.
Qed.

(** X23.  [selectNode(mat, node)] never raises; afterwards [node] is
    selected and is the active node of the material, every other node of
    the material's tree is deselected, and the flag of a node outside the
    tree is as it was. *)
Theorem selectNode_selects_only_the_node (mat : Mat) (node : Node)
  (scene : Scene) (log : list bake_event) :
  let out := selectNode mat node (scene, log) in
  let scene' := fst (snd out) in
  fst out = Ok tt /\
  node_select scene' node = true /\
  nodes_active scene' mat = Some node /\
  (forall n, In n (node_tree_nodes scene mat) ->
             (node_select scene' n = true <-> n = node)) /\
  (forall n, ~ In n (node_tree_nodes scene mat) -> n <> node ->
             node_select scene' n = node_select scene n).
Proof.
  cbv zeta. rewrite selectNode_run. cbn [fst snd].
  split; [reflexivity|].
  split; [rewrite select_active; apply select_same|].
  split; [apply active_set|]. split.
  - intros n Hin. rewrite select_active.
    destruct (Node_eq_dec node n) as [E|E].
    + subst n. rewrite select_same. tauto.
    + rewrite (select_other _ _ _ _ E), (deselect_visited _ _ _ Hin).
      split; [intros H; discriminate H | intros H; congruence].
  - intros n Hout Hne. rewrite select_active.
    rewrite select_other by congruence.
    apply deselect_other, Hout.
Qed.

End SelectNode.

Lemma selectNode_selects_only_the_node_witness :
  let out := CustomBakeOperator.selectNode tt 1%nat (ToyData.studio, []) in
  let scene' := fst (snd out) in
  fst out = Ok tt /\
  node_select scene' 1%nat = true /\
  nodes_active scene' tt = Some 1%nat /\
  (forall n, In n (node_tree_nodes ToyData.studio tt) ->
             (node_select scene' n = true <-> n = 1%nat)) /\
  (forall n, ~ In n (node_tree_nodes ToyData.studio tt) -> n <> 1%nat ->
             node_select scene' n = node_select ToyData.studio n).
Proof.
  apply (selectNode_selects_only_the_node Nat.eq_dec).
  - intros s n b. simpl. rewrite Nat.eqb_refl. reflexivity.
  - intros s n n' b Hne. simpl.
    destruct (Nat.eqb n n') eqn:E; [|reflexivity].
    apply Nat.eqb_eq in E. contradiction.
  - reflexivity.
  - reflexivity.
Defined.
